(** * Food detection and portion estimation: a shallow embedding

    The development follows [ai-service/app/services/food_detection.py]:
    the taxonomy table [FOOD_CLASSES], the label mapper
    [_map_to_food_class], the portion estimator [_estimate_portion] with its
    optional depth stage [_depth_based_estimation], and the per-image loop of
    [analyze_image].

    Numbers.  A Python float is a binary64 number, kept as the rational it
    denotes ([Q]): every float operation of the estimator is the exact
    operation followed by [double], the rounding to 53 binary digits (nearest,
    ties to even; the exponent range is not bounded, so overflow and
    subnormal numbers are left out), and [round(x, n)] is the float nearest
    to the decimal rounding of the exact value of [x].  The scalars of the
    depth stage are NumPy's: their precision depends on the NumPy version
    and their reductions on the memory layout, so that stage is kept in
    exact arithmetic, extended with the non-finite values that a division by
    zero and the mean of an empty crop create ([pyfloat]).

    Text.  A Python string is kept as its UTF-8 bytes.  [str.lower] is the
    byte-wise lower-casing of A-Z on ASCII text and is given by the case
    tables of the Unicode database on other text; those tables are not part
    of the repository and are a parameter ([UnicodeData]).

    Around the service, the development also follows its callers and what
    it calls: the two endpoints of [app/routers/food_analysis.py], the
    settings they read ([app/config.py]), the model registry of
    [app/services/model_loader.py] and the readiness probe of
    [app/routers/health.py]. *)

From Stdlib Require Import ZArith QArith Qround Qabs Qpower String Ascii List Lia Lqa.
From stdpp Require Import gmap strings list fin_maps.

Local Open Scope string_scope.
Local Open Scope Z_scope.

(** ** Exceptions and the results of fallible calls *)

Inductive exn : Type :=
| ValueError (msg : string)
| KeyError
| ZeroDivisionError
| UnidentifiedImageError
| ProviderError (msg : string).

Inductive outcome (A : Type) : Type :=
| Returns (a : A)
| Raises (e : exn).

Arguments Returns {A} a.
Arguments Raises {A} e.

#[global] Instance outcome_bind : MBind outcome :=
  fun A B (k : A -> outcome B) (m : outcome A) =>
    match m with
    | Returns a => k a
    | Raises e => Raises e
    end.

#[global] Instance outcome_ret : MRet outcome := fun A a => Returns a.

(** ** Numbers *)

Module Num.

Definition Qlt_bool (a b : Q) : bool := negb (Qle_bool b a).

(** [max(a, b)] and [min(a, b)] of Python: the first argument is kept
    unless the second is strictly larger (smaller). *)
Definition py_max (a b : Q) : Q := if Qlt_bool a b then b else a.
Definition py_min (a b : Q) : Q := if Qlt_bool b a then b else a.

(** Nearest integer, ties to the even one. *)
Definition round_half_even (y : Q) : Z :=
  let f := Qfloor y in
  let r := (y - inject_Z f)%Q in
  if Qlt_bool r (1 # 2) then f
  else if Qlt_bool (1 # 2) r then f + 1
  else if Z.even f then f else f + 1.

(** The binary order of magnitude of a positive number: the [k] with
    [2^k <= x < 2^(k+1)]. *)
Definition mag (x : Q) : Z :=
  let k := Z.log2 (Qnum x) - Z.log2 (Zpos (Qden x)) in
  if Qlt_bool x (2 ^ k) then k - 1 else k.

(** The exponent of the last of the [prec] binary digits of [x]. *)
Definition exponent (prec : Z) (x : Q) : Z := mag (Qabs x) - (prec - 1).

(** Rounding to [prec] binary digits, to the nearest, ties to even. *)
Definition rnd (prec : Z) (x : Q) : Q :=
  if Qeq_bool x 0 then 0%Q
  else
    let e := exponent prec x in
    Qred (inject_Z (round_half_even (x / 2 ^ e)) * 2 ^ e).

(** The binary64 number nearest to [x]: the value of a float literal, of
    an [int] converted to [float], and of every float operation. *)
Definition double (x : Q) : Q := rnd 53 x.

Definition fsub (a b : Q) : Q := double (a - b).
Definition fmul (a b : Q) : Q := double (a * b).
Definition fdiv (a b : Q) : Q := double (a / b).

(** [round(x, ndigits)] on a finite float: the float nearest to the
    decimal rounding (ties to even) of the exact value of [x]. *)
Definition py_round (ndigits : nat) (x : Q) : Q :=
  let p := Z.pow 10 (Z.of_nat ndigits) in
  double (inject_Z (round_half_even (x * inject_Z p)) / inject_Z p).

(** [int(x)]: truncation toward zero. *)
Definition py_int (x : Q) : Z := Z.quot (Qnum x) (Zpos (Qden x)).

(** Python float division raises on a zero divisor. *)
Definition py_div (a b : Q) : outcome Q :=
  if Qeq_bool b 0 then Raises ZeroDivisionError else Returns (fdiv a b).

(** Floats with the non-finite values of IEEE arithmetic, and the NumPy
    operations of the depth stage on them.  On finite values these
    operations are exact: the precision of a NumPy scalar is not fixed by
    the source. *)
Inductive pyfloat : Type :=
| Fin (q : Q)
| PInf
| NInf
| NaN.

Definition sign_inf (positive : bool) : pyfloat :=
  if positive then PInf else NInf.

(** NumPy division: no exception, a zero divisor gives inf or nan. *)
Definition np_div (a b : pyfloat) : pyfloat :=
  match a, b with
  | Fin x, Fin y =>
      if Qeq_bool y 0 then
        if Qeq_bool x 0 then NaN else sign_inf (Qlt_bool 0 x)
      else Fin (x / y)
  | Fin _, (PInf | NInf) => Fin 0
  | PInf, Fin y => sign_inf (Qle_bool 0 y)
  | NInf, Fin y => sign_inf (negb (Qle_bool 0 y))
  | _, _ => NaN
  end.

Definition np_mul (a b : pyfloat) : pyfloat :=
  match a, b with
  | Fin x, Fin y => Fin (x * y)
  | Fin x, PInf | PInf, Fin x =>
      if Qeq_bool x 0 then NaN else sign_inf (Qlt_bool 0 x)
  | Fin x, NInf | NInf, Fin x =>
      if Qeq_bool x 0 then NaN else sign_inf (Qlt_bool x 0)
  | PInf, PInf | NInf, NInf => PInf
  | PInf, NInf | NInf, PInf => NInf
  | _, _ => NaN
  end.

Definition np_add (a b : pyfloat) : pyfloat :=
  match a, b with
  | Fin x, Fin y => Fin (x + y)
  | Fin _, PInf | PInf, Fin _ | PInf, PInf => PInf
  | Fin _, NInf | NInf, Fin _ | NInf, NInf => NInf
  | _, _ => NaN
  end.

(** [a > b]; every comparison with nan is false. *)
Definition np_gt (a b : pyfloat) : bool :=
  match a, b with
  | Fin x, Fin y => Qlt_bool y x
  | PInf, (Fin _ | NInf) => true
  | Fin _, NInf => true
  | _, _ => false
  end.

(** Truth value of a float: false only for zero. *)
Definition truthy (a : pyfloat) : bool :=
  match a with
  | Fin x => negb (Qeq_bool x 0)
  | _ => true
  end.

(** [round(x, ndigits)]: non-finite values are returned as they are. *)
Definition round_float (ndigits : nat) (a : pyfloat) : pyfloat :=
  match a with
  | Fin x => Fin (py_round ndigits x)
  | other => other
  end.

(** [np.mean] of the flattened array; nan on an empty one. *)
Definition np_mean (l : list Q) : pyfloat :=
  np_div (Fin (fold_left Qplus l 0%Q)) (Fin (inject_Z (Z.of_nat (length l)))).

(** [np.max] of the flattened array; raises on an empty one. *)
Definition np_max (l : list Q) : outcome Q :=
  match l with
  | [] => Raises (ValueError "zero-size array to reduction operation maximum")
  | x :: rest => Returns (fold_left py_max rest x)
  end.

(** Index normalisation of a slice bound on a sequence of length [n]. *)
Definition slice_index (n i : Z) : Z :=
  if i <? 0 then Z.max 0 (i + n) else Z.min i n.

(** [l[a:b]] *)
Definition py_slice {A : Type} (l : list A) (a b : Z) : list A :=
  let n := Z.of_nat (length l) in
  let s := slice_index n a in
  let e := slice_index n b in
  firstn (Z.to_nat (e - s)) (skipn (Z.to_nat s) l).

End Num.

Export Num.

(** ** The taxonomy table *)

Record FoodClassInfo : Type := {
  calories_per_100g : Z;
  default_weight : Z
}.

Definition food (calories weight : Z) : FoodClassInfo :=
  {| calories_per_100g := calories; default_weight := weight |}.

Definition FOOD_CLASSES : gmap string FoodClassInfo :=
  list_to_map [
    ("apple", food 52 182);
    ("banana", food 89 118);
    ("orange", food 47 131);
    ("pizza", food 266 107);
    ("hamburger", food 295 226);
    ("sandwich", food 250 150);
    ("salad", food 20 200);
    ("rice", food 130 158);
    ("pasta", food 131 140);
    ("chicken", food 239 140);
    ("steak", food 271 221);
    ("fish", food 206 154);
    ("egg", food 155 50);
    ("bread", food 265 30);
    ("cake", food 257 80);
    ("cookie", food 502 30);
    ("soup", food 40 240);
    ("coffee", food 2 240);
    ("juice", food 45 240);
    ("milk", food 42 244)
  ].

(** ** [str.lower] *)

(** The lower-casing of the Unicode database on text that is not ASCII,
    given its first byte and the rest.  Lower-casing replaces each character
    by one or more characters, so the result has a first byte too. *)
Class UnicodeData : Type := {
  lower_text : ascii -> string -> ascii * string
}.

Definition lower_char (c : ascii) : ascii :=
  let n := N_of_ascii c in
  if ((65 <=? n) && (n <=? 90))%N then ascii_of_N (n + 32) else c.

Fixpoint ascii_lower (s : string) : string :=
  match s with
  | EmptyString => EmptyString
  | String c rest => String (lower_char c) (ascii_lower rest)
  end.

(** Every byte is below 128. *)
Fixpoint is_ascii (s : string) : bool :=
  match s with
  | EmptyString => true
  | String c rest => (N_of_ascii c <? 128)%N && is_ascii rest
  end.

Definition lower {U : UnicodeData} (s : string) : string :=
  if is_ascii s then ascii_lower s
  else
    match s with
    | EmptyString => EmptyString
    | String c rest => let (c', rest') := lower_text c rest in String c' rest'
    end.

(** ** [_map_to_food_class] *)

(** The alias table built inside the mapper; a key bound to [None] is a
    label that is skipped. *)
Definition mappings : gmap string (option string) :=
  list_to_map [
    ("hot dog", Some "hotdog");
    ("french fries", Some "fries");
    ("doughnut", Some "donut");
    ("cup", Some "coffee");
    ("bowl", Some "soup");
    ("plate", None)
  ].

Definition _map_to_food_class {U : UnicodeData} (detected_class : string)
  : option string :=
  let detected_lower := lower detected_class in
  match FOOD_CLASSES !! detected_lower with
  | Some _ => Some detected_lower
  | None =>
      (* mappings.get(detected_lower, detected_lower) *)
      match mappings !! detected_lower with
      | Some image => image
      | None => Some detected_lower
      end
  end.

(** Truth value of an [Optional[str]]: [None] and the empty string are
    false. *)
Definition truthy_name (food_name : option string) : option string :=
  match food_name with
  | Some EmptyString => None
  | other => other
  end.

(** ** Images, detector output and the model registry *)

(** A decoded PIL image. *)
Record PILImage : Type := {
  width : Z;
  height : Z;
  bands : option Z;
  getpixel : Z -> Z -> list Z       (* column, row *)
}.

(** A NumPy array of pixels: [shape] is [(shape0, shape1)] or
    [(shape0, shape1, channels)]. *)
Record ndarray : Type := {
  shape0 : Z;
  shape1 : Z;
  channels : option Z;
  item : Z -> Z -> list Z           (* row, column *)
}.

(** [np.array(image)]: rows first. *)
Definition np_array (image : PILImage) : ndarray :=
  {| shape0 := height image;
     shape1 := width image;
     channels := bands image;
     item := fun row column => getpixel image column row |}.

Definition bbox : Type := (Q * Q * Q * Q)%type.

(** One box of a detector result: [cls[0]], [conf[0]], [xyxy[0]]. *)
Record Box : Type := {
  cls : Z;
  conf : Q;
  xyxy : bbox
}.

Record DetectionResult : Type := {
  boxes : option (list Box);
  names : gmap Z string
}.

(** The detector called on the pixel array with [conf=threshold]. *)
Definition FoodModel : Type := ndarray -> Q -> outcome (list DetectionResult).

(** The depth provider, from the colour conversion to
    [prediction.cpu().numpy()]: a depth map at image resolution, or an
    exception. *)
Definition DepthModel : Type := ndarray -> outcome (list (list Q)).

Record ModelLoader : Type := {
  food_recognition : option FoodModel;
  depth_estimation : option DepthModel
}.

Record FoodDetectionService : Type := {
  model_loader : ModelLoader;
  confidence_threshold : Q
}.

(** ** [_depth_based_estimation] *)

(** The weight computed from a depth map: mean depth of the crop over the
    largest depth of the map, times the box area in pixels, times the
    calibration factor. *)
Definition calibration_factor : Q := 0.001.

Definition depth_grams (area : Z) (normalized_depth : pyfloat) : pyfloat :=
  let volume_factor := np_mul (Fin (inject_Z area)) normalized_depth in
  np_mul volume_factor (Fin calibration_factor).

Definition depth_weight (depth_map : list (list Q)) (b : bbox) : outcome pyfloat :=
  let '(bx1, by1, bx2, by2) := b in
  let x1 := py_int bx1 in
  let y1 := py_int by1 in
  let x2 := py_int bx2 in
  let y2 := py_int by2 in
  let food_depth := map (fun row => py_slice row x1 x2) (py_slice depth_map y1 y2) in
  let avg_depth := np_mean (concat food_depth) in
  let area := (x2 - x1) * (y2 - y1) in
  max_depth ← np_max (concat depth_map);
  let normalized_depth := np_div avg_depth (Fin max_depth) in
  Returns (depth_grams area normalized_depth).

(** [estimated_grams if estimated_grams > 10 else None] *)
Definition reject_noise (estimated_grams : pyfloat) : option pyfloat :=
  if np_gt estimated_grams (Fin 10) then Some estimated_grams else None.

Definition _depth_based_estimation
    (image : ndarray) (b : bbox) (depth_model : DepthModel)
  : outcome (option pyfloat) :=
  depth_map ← depth_model image;
  estimated_grams ← depth_weight depth_map b;
  Returns (reject_noise estimated_grams).

(** ** [_estimate_portion] *)

Definition food_area (b : bbox) : Q :=
  let '(x1, y1, x2, y2) := b in fmul (fsub x2 x1) (fsub y2 y1).

Definition default_weight_of (food_name : string) : Q :=
  match FOOD_CLASSES !! food_name with
  | Some info => inject_Z (default_weight info)
  | None => 100
  end.

Definition typical_ratio : Q := double 0.15.

Definition clamp (scale_factor : Q) : Q := py_max 0.5 (py_min 2.0 scale_factor).

(** The blend of the area estimate with what the depth stage gave.  The
    depth estimate is a NumPy scalar, so the sum and the halving are NumPy's
    and are kept exact, like the depth stage. *)
Definition blend (estimated_weight : Q) (depth : outcome (option pyfloat)) : pyfloat :=
  match depth with
  | Returns (Some depth_estimate) =>
      if truthy depth_estimate
      then np_div (np_add (Fin estimated_weight) depth_estimate) (Fin 2)
      else Fin estimated_weight
  | Returns None => Fin estimated_weight
  | Raises _ => Fin estimated_weight   (* logged, then ignored *)
  end.

Definition _estimate_portion
    (self : FoodDetectionService) (image : ndarray) (food_name : string) (b : bbox)
  : outcome pyfloat :=
  let image_area := shape0 image * shape1 image in
  area_ratio ← py_div (food_area b) (double (inject_Z image_area));
  let default_weight := default_weight_of food_name in
  let scale_factor := fdiv area_ratio typical_ratio in
  let scale_factor := clamp scale_factor in
  let estimated_weight := fmul (double default_weight) scale_factor in
  let estimated_weight :=
    match depth_estimation (model_loader self) with
    | Some depth_model =>
        blend estimated_weight (_depth_based_estimation image b depth_model)
    | None => Fin estimated_weight
    end in
  Returns (round_float 1 estimated_weight).

(** ** [analyze_image] *)

Record BoundingBox : Type := {
  bb_x : Z;
  bb_y : Z;
  bb_width : Z;
  bb_height : Z
}.

Record FoodInfo : Type := {
  name : string;
  confidence : Q;
  bounding_box : BoundingBox
}.

Record AnalysisResult : Type := {
  detected_foods : list FoodInfo;
  portion_estimates : gmap string pyfloat;
  image_dimensions : Z * Z       (* width, height *)
}.

(** The two accumulators of the loop. *)
Record Acc : Type := {
  acc_foods : list FoodInfo;
  acc_portions : gmap string pyfloat
}.

Definition empty_acc : Acc := {| acc_foods := []; acc_portions := ∅ |}.

(** [result.names[class_id]] *)
Definition class_name_of (nm : gmap Z string) (class_id : Z) : outcome string :=
  match nm !! class_id with
  | Some class_name => Returns class_name
  | None => Raises KeyError
  end.

(** The body of [for box in boxes]. *)
Definition analyze_box {U : UnicodeData}
    (self : FoodDetectionService) (include_portion_estimate : bool)
    (image_np : ndarray) (nm : gmap Z string) (acc : Acc) (box : Box)
  : outcome Acc :=
  let class_id := cls box in
  class_name ← class_name_of nm class_id;
  let confidence := conf box in
  let '(x1, y1, x2, y2) := xyxy box in
  match truthy_name (_map_to_food_class class_name) with
  | Some food_name =>
      let food_info :=
        {| name := food_name;
           confidence := py_round 3 confidence;
           bounding_box :=
             {| bb_x := py_int x1;
                bb_y := py_int y1;
                bb_width := py_int (fsub x2 x1);
                bb_height := py_int (fsub y2 y1) |} |} in
      let detected := (acc_foods acc ++ [food_info])%list in
      if include_portion_estimate then
        portion ← _estimate_portion self image_np food_name (x1, y1, x2, y2);
        Returns {| acc_foods := detected;
                   acc_portions := <[food_name := portion]> (acc_portions acc) |}
      else
        Returns {| acc_foods := detected; acc_portions := acc_portions acc |}
  | None => Returns acc
  end.

Fixpoint analyze_boxes {U : UnicodeData}
    (self : FoodDetectionService) (include_portion_estimate : bool)
    (image_np : ndarray) (nm : gmap Z string) (acc : Acc) (bs : list Box)
  : outcome Acc :=
  match bs with
  | [] => Returns acc
  | box :: rest =>
      acc' ← analyze_box self include_portion_estimate image_np nm acc box;
      analyze_boxes self include_portion_estimate image_np nm acc' rest
  end.

(** The body of [for result in results]: a result without boxes is
    skipped. *)
Definition analyze_result {U : UnicodeData}
    (self : FoodDetectionService) (include_portion_estimate : bool)
    (image_np : ndarray) (acc : Acc) (result : DetectionResult)
  : outcome Acc :=
  match boxes result with
  | None => Returns acc
  | Some bs =>
      analyze_boxes self include_portion_estimate image_np (names result) acc bs
  end.

Fixpoint analyze_results {U : UnicodeData}
    (self : FoodDetectionService) (include_portion_estimate : bool)
    (image_np : ndarray) (acc : Acc) (results : list DetectionResult)
  : outcome Acc :=
  match results with
  | [] => Returns acc
  | result :: rest =>
      acc' ← analyze_result self include_portion_estimate image_np acc result;
      analyze_results self include_portion_estimate image_np acc' rest
  end.

Section Analyze.

Context {U : UnicodeData}.

(** [Image.open(io.BytesIO(image_data))]: the decoder of the imaging
    library. *)
Variable image_open : list Byte.byte -> outcome PILImage.

Definition analyze_image
    (self : FoodDetectionService) (image_data : list Byte.byte)
    (include_portion_estimate : bool)
  : outcome AnalysisResult :=
  image ← image_open image_data;
  let image_np := np_array image in
  match food_recognition (model_loader self) with
  | None => Raises (ValueError "Food recognition model not loaded")
  | Some food_model =>
      results ← food_model image_np (confidence_threshold self);
      acc ← analyze_results self include_portion_estimate image_np empty_acc results;
      Returns {| detected_foods := acc_foods acc;
                 portion_estimates := acc_portions acc;
                 image_dimensions := (width image, height image) |}
  end.

End Analyze.

(** ** Vocabulary of the statements *)

(** The food key under which a detection is kept, if it is kept. *)
Definition food_key {U : UnicodeData} (nm : gmap Z string) (box : Box)
  : option string :=
  match nm !! cls box with
  | Some class_name => truthy_name (_map_to_food_class class_name)
  | None => None
  end.

(** The boxes of all results, in the order the two loops visit them, each
    with the class names of its result. *)
Definition detections (results : list DetectionResult) : list (gmap Z string * Box) :=
  flat_map (fun result =>
              match boxes result with
              | Some bs => map (fun box => (names result, box)) bs
              | None => []
              end) results.

(** The two loops as one pass over [detections]. *)
Fixpoint analyze_detections {U : UnicodeData}
    (self : FoodDetectionService) (include_portion_estimate : bool)
    (image_np : ndarray) (acc : Acc) (ds : list (gmap Z string * Box))
  : outcome Acc :=
  match ds with
  | [] => Returns acc
  | (nm, box) :: rest =>
      acc' ← analyze_box self include_portion_estimate image_np nm acc box;
      analyze_detections self include_portion_estimate image_np acc' rest
  end.

(** Every key with a portion estimate names a detected food. *)
Definition covered (acc : Acc) : Prop :=
  forall key : string,
    is_Some (acc_portions acc !! key) ->
    exists food_info, food_info ∈ acc_foods acc /\ name food_info = key.

(** The scale factor of [_estimate_portion] before it is clamped. *)
Definition scale_ratio (image : ndarray) (b : bbox) : Q :=
  fdiv (fdiv (food_area b) (double (inject_Z (shape0 image * shape1 image))))
    typical_ratio.

(** The unrounded area estimate of [_estimate_portion]. *)
Definition area_weight (image : ndarray) (food_name : string) (b : bbox) : Q :=
  fmul (double (default_weight_of food_name)) (clamp (scale_ratio image b)).

(** [grams] is [x] rounded to one decimal: the float nearest to the whole
    number of tenths that lies within half a tenth of [x], the even number
    of tenths when [x] lies half-way between two. *)
Definition rounded_to_tenth (grams x : Q) : Prop :=
  exists tenths : Z,
    grams = double (inject_Z tenths / 10) /\
    (Qabs (inject_Z tenths / 10 - x) <= 1 # 20)%Q /\
    ((Qabs (inject_Z tenths / 10 - x) == 1 # 20)%Q -> Z.even tenths = true).



(** Degenerate geometry of a box in an image of the given size: no width,
    no height, or a corner outside the image. *)
Definition degenerate (image : PILImage) (b : bbox) : bool :=
  let '(x1, y1, x2, y2) := b in
  Qeq_bool x1 x2 || Qeq_bool y1 y2
  || Qlt_bool x1 0 || Qlt_bool y1 0
  || Qlt_bool (inject_Z (width image)) x2
  || Qlt_bool (inject_Z (height image)) y2.

(** The entry [analyze_image] appends for a detection, if it keeps it. *)
Definition food_info_of {U : UnicodeData} (nm : gmap Z string) (box : Box)
  : option FoodInfo :=
  match food_key nm box with
  | Some food_name =>
      let '(x1, y1, x2, y2) := xyxy box in
      Some {| name := food_name;
              confidence := py_round 3 (conf box);
              bounding_box :=
                {| bb_x := py_int x1;
                   bb_y := py_int y1;
                   bb_width := py_int (fsub x2 x1);
                   bb_height := py_int (fsub y2 y1) |} |}
  | None => None
  end.

(** The entries for a sequence of detections, in order. *)
Definition kept_foods {U : UnicodeData} (ds : list (gmap Z string * Box))
  : list FoodInfo :=
  omap (fun d => food_info_of d.1 d.2) ds.



(** ** Settings ([app/config.py]) *)

(** The settings the analysis endpoints read. *)
Record Settings : Type := {
  FOOD_RECOGNITION_CONFIDENCE : Q;
  MAX_IMAGE_SIZE : Z;
  ALLOWED_IMAGE_TYPES : string
}.

(** [s.split(sep)] for a separator of one character. *)
Fixpoint split_on (sep : ascii) (s : string) : list string :=
  match s with
  | EmptyString => [EmptyString]
  | String c rest =>
      if Ascii.eqb c sep then EmptyString :: split_on sep rest
      else
        match split_on sep rest with
        | piece :: pieces => String c piece :: pieces
        | [] => [String c EmptyString]
        end
  end.

(** [c in s] for a character. *)
Fixpoint has_char (c : ascii) (s : string) : bool :=
  match s with
  | EmptyString => false
  | String c' rest => Ascii.eqb c' c || has_char c rest
  end.

Definition allowed_image_types_list (settings : Settings) : list string :=
  split_on "," (ALLOWED_IMAGE_TYPES settings).

(** [FoodDetectionService(model_loader)] *)
Definition FoodDetectionService_init
    (settings : Settings) (loader : ModelLoader) : FoodDetectionService :=
  {| model_loader := loader;
     confidence_threshold := FOOD_RECOGNITION_CONFIDENCE settings |}.

(** ** The model registry ([app/services/model_loader.py]) *)

Module Loader.

(** What the registry holds: the detector under "food_recognition", the
    depth model with its transform under "depth_estimation". *)
Inductive Model : Type :=
| Detector (model : FoodModel)
| Depth (model : DepthModel).

Record t : Type := {
  models : gmap string (option Model);
  device : string
}.

(** The detector is built and moved to the device by the vision library;
    a failure is logged and raised again. *)
Definition _load_food_recognition_model
    (build : string -> outcome FoodModel) (self : t) : outcome t :=
  model ← build (device self);
  Returns {| models := <["food_recognition" := Some (Detector model)]> (models self);
             device := device self |}.

(** The depth model is fetched from the model hub; a failure is logged and
    the entry is set to [None]. *)
Definition _load_depth_estimation_model
    (fetch : string -> outcome DepthModel) (self : t) : t :=
  match fetch (device self) with
  | Returns model =>
      {| models := <["depth_estimation" := Some (Depth model)]> (models self);
         device := device self |}
  | Raises _ =>
      {| models := <["depth_estimation" := None]> (models self);
         device := device self |}
  end.

Definition load_models
    (build : string -> outcome FoodModel) (fetch : string -> outcome DepthModel)
    (self : t) : outcome t :=
  self ← _load_food_recognition_model build self;
  Returns (_load_depth_estimation_model fetch self).

(** [self.models.get(model_name)] *)
Definition get_model (self : t) (model_name : string) : option Model :=
  match models self !! model_name with
  | Some entry => entry
  | None => None
  end.

(** [self.models.clear()] *)
Definition unload_models (self : t) : t :=
  {| models := ∅; device := device self |}.

(** The two lookups of [FoodDetectionService], as it uses their results: a
    detector to call, a depth model to run. *)
Definition for_service (self : t) : ModelLoader :=
  {| food_recognition :=
       match get_model self "food_recognition" with
       | Some (Detector model) => Some model
       | _ => None
       end;
     depth_estimation :=
       match get_model self "depth_estimation" with
       | Some (Depth model) => Some model
       | _ => None
       end |}.

End Loader.

(** ** The readiness probe ([app/routers/health.py]) *)

Inductive Readiness : Type :=
| Ready
| NotReady (reason : string).

(** The application state has a model loader once start-up has stored
    one. *)
Definition readiness_check (state : option Loader.t) : Readiness :=
  match state with
  | None => NotReady "Models not initialized"
  | Some loader =>
      match Loader.get_model loader "food_recognition" with
      | None => NotReady "Food recognition model not loaded"
      | Some _ => Ready
      end
  end.

(** ** The analysis endpoints ([app/routers/food_analysis.py]) *)

(** An upload: its declared content type and its bytes. *)
Record UploadFile : Type := {
  content_type : option string;
  read : list Byte.byte
}.

(** What an endpoint function does: it returns a body, or raises an
    [HTTPException] with a status code (the text of its detail is left
    out).  The framework serialises a returned body afterwards; that step
    is not part of the function and is not modelled. *)
Inductive http (A : Type) : Type :=
| Respond (body : A)
| HTTPException (status_code : Z).

Arguments Respond {A} body.
Arguments HTTPException {A} status_code.

(** [image.content_type not in settings.allowed_image_types_list] *)
Definition type_allowed (settings : Settings) (image : UploadFile) : bool :=
  match content_type image with
  | Some declared => bool_decide (declared ∈ allowed_image_types_list settings)
  | None => false
  end.

Inductive PortionResponse : Type :=
| OneFood (food_name : string) (estimated_grams : pyfloat)
| AllFoods (portion_estimates : gmap string pyfloat).

Section Endpoints.

Context {U : UnicodeData}.

Variable settings : Settings.
Variable image_open : list Byte.byte -> outcome PILImage.

(** [request.app.state.model_loader], missing when start-up stored none. *)
Variable state : option Loader.t.

Definition analyze_food_image (image : UploadFile) (include_portion_estimate : bool)
  : http AnalysisResult :=
  if negb (type_allowed settings image) then HTTPException 400
  else
    let contents := read image in
    if MAX_IMAGE_SIZE settings <? Z.of_nat (length contents) then HTTPException 400
    else
      match state with
      | None => HTTPException 500
      | Some loader =>
          let detection_service :=
            FoodDetectionService_init settings (Loader.for_service loader) in
          match analyze_image image_open detection_service contents
                  include_portion_estimate with
          | Returns result => Respond result
          | Raises _ => HTTPException 500
          end
      end.

Definition estimate_portion (image : UploadFile) (food_name : option string)
  : http PortionResponse :=
  let contents := read image in
  match state with
  | None => HTTPException 500
  | Some loader =>
      let detection_service :=
        FoodDetectionService_init settings (Loader.for_service loader) in
      match analyze_image image_open detection_service contents true with
      | Returns result =>
          match truthy_name food_name with
          | Some wanted =>
              match portion_estimates result !! wanted with
              | Some grams => Respond (OneFood wanted grams)
              | None => Respond (AllFoods (portion_estimates result))
              end
          | None => Respond (AllFoods (portion_estimates result))
          end
      | Raises _ => HTTPException 500
      end
  end.

End Endpoints.

(** ** A photograph of one apple *)

Module Scenario.

(** The case tables as far as Latin-1 goes.  In UTF-8 the capital letters
    from U+00C0 to U+00DE are the byte 195 followed by a byte from 128 to
    158 (151, the multiplication sign, apart); the small letter has the
    same first byte and a second byte that is 32 larger. *)
Definition lower_byte (after_lead : bool) (c : ascii) : ascii :=
  let n := N_of_ascii c in
  if (after_lead && (128 <=? n) && (n <=? 158) && negb (n =? 151))%N
  then ascii_of_N (n + 32)
  else lower_char c.

Fixpoint latin1_lower (after_lead : bool) (s : string) : string :=
  match s with
  | EmptyString => EmptyString
  | String c rest =>
      String (lower_byte after_lead c) (latin1_lower (Ascii.eqb c "195") rest)
  end.

#[global] Instance latin1 : UnicodeData :=
  {| lower_text := fun c rest =>
       (lower_char c, latin1_lower (Ascii.eqb c "195") rest) |}.

(** A 1000 x 1000 colour image; the pixel values play no part. *)
Definition photo : PILImage :=
  {| width := 1000; height := 1000; bands := Some 3;
     getpixel := fun _ _ => [0; 0; 0] |}.

Definition photo' : PILImage :=
  {| width := 1000; height := 1000; bands := Some 3;
     getpixel := fun column row => [column; row; 255] |}.

Definition image_open (image_data : list Byte.byte) : outcome PILImage :=
  Returns photo.

Definition the_box : Box :=
  {| cls := 47; conf := double 0.9; xyxy := (100, 100, 400, 400)%Q |}.

(** The same place, with no width. *)
Definition flat_box : Box :=
  {| cls := 47; conf := double 0.9; xyxy := (100, 100, 100, 400)%Q |}.

(** A detector that reports the given boxes, all of one class. *)
Definition detector (label : string) (bs : list Box) : FoodModel :=
  fun _ _ => Returns [ {| boxes := Some bs; names := {[ 47 := label ]} |} ].

Definition service (label : string) (bs : list Box) (depth : option DepthModel)
  : FoodDetectionService :=
  {| model_loader :=
       {| food_recognition := Some (detector label bs);
          depth_estimation := depth |};
     confidence_threshold := 0.5 |}.

(** A slice of bread whose area estimate, 15.05 g before rounding, lies
    between two tenths. *)
Definition bread_box : Box :=
  {| cls := 47; conf := double 0.8; xyxy := (0, 0, 250, 301)%Q |}.

(** A 200 x 200 snapshot with a depth map that is flat: the box over the
    whole snapshot weighs 40 g by depth. *)
Definition snapshot : PILImage :=
  {| width := 200; height := 200; bands := Some 3;
     getpixel := fun _ _ => [128; 128; 128] |}.




Definition flat_map : list (list Q) := repeat (repeat 1%Q 200) 200.

Definition flat_provider : DepthModel := fun _ => Returns flat_map.

(** What the analysis of the apple photograph returns. *)
Definition apple_food : FoodInfo :=
  {| name := "apple";
     confidence := double 0.9;
     bounding_box :=
       {| bb_x := 100; bb_y := 100; bb_width := 300; bb_height := 300 |} |}.

Definition apple_result : AnalysisResult :=
  {| detected_foods := [apple_food];
     portion_estimates := {[ "apple" := Fin (double 109.2) ]};
     image_dimensions := (1000, 1000) |}.

(** A detector whose result names no class. *)
Definition nameless_detector : FoodModel :=
  fun _ _ => Returns [ {| boxes := Some [the_box]; names := ∅ |} ].

Definition nameless_service : FoodDetectionService :=
  {| model_loader :=
       {| food_recognition := Some nameless_detector;
          depth_estimation := None |};
     confidence_threshold := 0.5 |}.

(** The settings as the configuration file defaults them. *)
Definition default_settings : Settings :=
  {| FOOD_RECOGNITION_CONFIDENCE := 0.5;
     MAX_IMAGE_SIZE := 10485760;
     ALLOWED_IMAGE_TYPES := "image/jpeg,image/png,image/webp" |}.

Definition upload (declared : string) : UploadFile :=
  {| content_type := Some declared; read := [] |}.

(** A start-up in which the detector loads and the depth model does not. *)
Definition fresh : Loader.t := {| Loader.models := ∅; Loader.device := "cpu" |}.

Definition build (device : string) : outcome FoodModel :=
  Returns (detector "apple" [the_box]).

Definition fetch (device : string) : outcome DepthModel :=
  Raises (ProviderError "model hub unreachable").

Definition started : Loader.t :=
  Loader._load_depth_estimation_model fetch
    {| Loader.models :=
         <["food_recognition" := Some (Loader.Detector (detector "apple" [the_box]))]> ∅;
       Loader.device := "cpu" |}.

(** A registry whose detector labels the box "Éclair". *)
Definition patisserie : Loader.t :=
  {| Loader.models :=
       <["food_recognition" := Some (Loader.Detector (detector "Éclair" [the_box]))]> ∅;
     Loader.device := "cpu" |}.

End Scenario.

(** * Facts about the numeric layer *)

Module NumFacts.

Lemma Qlt_bool_iff (a b : Q) : Qlt_bool a b = true <-> (a < b)%Q.
Proof.
  unfold Qlt_bool. rewrite negb_true_iff.
  split; intros H.
  - apply Qnot_le_lt. intros Hle. apply Qle_bool_iff in Hle. congruence.
  - destruct (Qle_bool b a) eqn:E; [|reflexivity].
    apply Qle_bool_iff in E. exfalso. apply (Qlt_not_le _ _ H E).
Qed.

Lemma Qlt_bool_false (a b : Q) : Qlt_bool a b = false <-> (b <= a)%Q.
Proof.
  unfold Qlt_bool. rewrite negb_false_iff. apply Qle_bool_iff.
Qed.

Ltac case_Qlt a b :=
  let E := fresh "E" in
  destruct (Qlt_bool a b) eqn:E;
  [apply Qlt_bool_iff in E | apply Qlt_bool_false in E].

(** [lra] reads a product by a constant, not a quotient. *)
Ltac tenths :=
  unfold Qdiv in *; change (/ 10)%Q with (1 # 10)%Q in *.

(** The rounded integer is the floor or the floor plus one. *)
Lemma round_half_even_cases (y : Q) :
  (round_half_even y = Qfloor y /\ (y - inject_Z (Qfloor y) <= 1 # 2)%Q) \/
  (round_half_even y = Qfloor y + 1 /\ (1 # 2 <= y - inject_Z (Qfloor y))%Q).
Proof.
  unfold round_half_even.
  case_Qlt (y - inject_Z (Qfloor y))%Q (1 # 2)%Q.
  - left. split; [reflexivity | lra].
  - case_Qlt (1 # 2)%Q (y - inject_Z (Qfloor y))%Q.
    + right. split; [reflexivity | lra].
    + destruct (Z.even (Qfloor y)); [left | right]; split; auto.
Qed.

Lemma round_half_even_lower (k : Z) (y : Q) :
  (inject_Z k <= y)%Q -> k <= round_half_even y.
Proof.
  intros H.
  assert (Hk : k <= Qfloor y).
  { rewrite <- (Qfloor_Z k). apply Qfloor_resp_le, H. }
  destruct (round_half_even_cases y) as [[-> _] | [-> _]]; lia.
Qed.

Lemma round_half_even_upper (k : Z) (y : Q) :
  (y <= inject_Z k)%Q -> round_half_even y <= k.
Proof.
  intros H.
  pose proof (Qfloor_le y) as Hf.
  destruct (round_half_even_cases y) as [[-> _] | [-> Hr]].
  - rewrite Zle_Qle. lra.
  - assert (Hlt : (inject_Z (Qfloor y) < inject_Z k)%Q) by lra.
    rewrite <- Zlt_Qlt in Hlt. lia.
Qed.

(** The rounded integer is within one half of the argument. *)
Lemma round_half_even_error (y : Q) :
  (Qabs (inject_Z (round_half_even y) - y) <= 1 # 2)%Q.
Proof.
  pose proof (Qfloor_le y) as Hf.
  pose proof (Qlt_floor y) as Hc.
  rewrite inject_Z_plus in Hc. change (inject_Z 1) with 1%Q in Hc.
  apply Qabs_Qle_condition.
  destruct (round_half_even_cases y) as [[-> Hr] | [-> Hr]].
  - split; lra.
  - rewrite inject_Z_plus. change (inject_Z 1) with 1%Q. split; lra.
Qed.

(** Half-way between two integers, the even one is taken. *)
Lemma round_half_even_tie (y : Q) :
  (Qabs (inject_Z (round_half_even y) - y) == 1 # 2)%Q ->
  Z.even (round_half_even y) = true.
Proof.
  pose proof (Qfloor_le y) as Hf.
  pose proof (Qlt_floor y) as Hc.
  rewrite inject_Z_plus in Hc. change (inject_Z 1) with 1%Q in Hc.
  unfold round_half_even.
  case_Qlt (y - inject_Z (Qfloor y))%Q (1 # 2)%Q.
  - apply Qabs_case; intros Hs H; lra.
  - case_Qlt (1 # 2)%Q (y - inject_Z (Qfloor y))%Q.
    + rewrite inject_Z_plus. change (inject_Z 1) with 1%Q.
      apply Qabs_case; intros Hs H; lra.
    + intros _. destruct (Z.even (Qfloor y)) eqn:Ev; [exact Ev |].
      rewrite Z.even_add, Ev. reflexivity.
Qed.

Lemma round_half_even_proper (x y : Q) :
  (x == y)%Q -> round_half_even x = round_half_even y.
Proof.
  intros H. unfold round_half_even.
  assert (Hf : Qfloor x = Qfloor y) by (rewrite H; reflexivity).
  rewrite Hf.
  assert (Hr : (x - inject_Z (Qfloor y) == y - inject_Z (Qfloor y))%Q)
    by (rewrite H; reflexivity).
  unfold Qlt_bool.
  assert (H1 : Qle_bool (1 # 2) (x - inject_Z (Qfloor y))
               = Qle_bool (1 # 2) (y - inject_Z (Qfloor y))).
  { apply eq_true_iff_eq. rewrite !Qle_bool_iff, Hr. reflexivity. }
  assert (H2 : Qle_bool (x - inject_Z (Qfloor y)) (1 # 2)
               = Qle_bool (y - inject_Z (Qfloor y)) (1 # 2)).
  { apply eq_true_iff_eq. rewrite !Qle_bool_iff, Hr. reflexivity. }
  rewrite H1, H2. reflexivity.
Qed.

(** ** Binary rounding *)

(** Powers of two. *)
Lemma pow2_pos (e : Z) : (0 < 2 ^ e)%Q.
Proof. apply Qpower_0_lt. reflexivity. Qed.

Lemma pow2_add (a b : Z) : (2 ^ (a + b) == 2 ^ a * 2 ^ b)%Q.
Proof. apply Qpower_plus. discriminate. Qed.

Lemma pow2_succ (a : Z) : (2 ^ (a + 1) == 2 * 2 ^ a)%Q.
Proof. rewrite pow2_add. change (2 ^ 1)%Q with 2%Q. ring. Qed.

Lemma pow2_le (a b : Z) : a <= b -> (2 ^ a <= 2 ^ b)%Q.
Proof. intros H. apply Qpower_le_compat_l; [exact H | discriminate]. Qed.

Lemma pow2_lt_inv (a b : Z) : (2 ^ a < 2 ^ b)%Q -> a < b.
Proof. intros H. apply (Qpower_lt_compat_l_inv 2); [exact H | reflexivity]. Qed.

Lemma pow2_Z (a : Z) : 0 <= a -> (inject_Z (2 ^ a) == 2 ^ a)%Q.
Proof. intros H. rewrite (Zpower_Qpower 2 a H). reflexivity. Qed.

(** The binary order of magnitude. *)
Lemma mag_spec (x : Q) : (0 < x)%Q -> (2 ^ mag x <= x < 2 ^ (mag x + 1))%Q.
Proof.
  intros Hx. unfold mag.
  destruct x as [n d]. cbn [Qnum Qden].
  assert (Hn : 0 < n) by (unfold Qlt in Hx; cbn in Hx; lia).
  set (a := Z.log2 n). set (b := Z.log2 (Zpos d)).
  destruct (Z.log2_spec n Hn) as [Ha1 Ha2]. fold a in Ha1, Ha2.
  destruct (Z.log2_spec (Zpos d) eq_refl) as [Hb1 Hb2]. fold b in Hb1, Hb2.
  assert (Ha0 : 0 <= a) by apply Z.log2_nonneg.
  assert (Hb0 : 0 <= b) by apply Z.log2_nonneg.
  rewrite Zle_Qle, (pow2_Z a Ha0) in Ha1.
  rewrite Zlt_Qlt, (pow2_Z _ (Z.le_le_succ_r _ _ Ha0)) in Ha2.
  rewrite Zle_Qle, (pow2_Z b Hb0) in Hb1.
  rewrite Zlt_Qlt, (pow2_Z _ (Z.le_le_succ_r _ _ Hb0)) in Hb2.
  change (Z.succ a) with (a + 1) in Ha2. change (Z.succ b) with (b + 1) in Hb2.
  rewrite pow2_succ in Ha2, Hb2.
  assert (Hx' : ((n # d) * inject_Z (Zpos d) == inject_Z n)%Q).
  { unfold Qeq, Qmult, inject_Z. cbn. lia. }
  set (x := (n # d)) in *. set (D := inject_Z (Zpos d)) in *.
  set (N := inject_Z n) in *.
  assert (HK : (2 ^ (a - b) * 2 ^ b == 2 ^ a)%Q).
  { rewrite <- pow2_add. replace (a - b + b) with a by lia. reflexivity. }
  pose proof (pow2_pos (a - b)) as HKpos. pose proof (pow2_pos b) as HBpos.
  pose proof (pow2_succ (a - b)) as HK2.
  assert (HK1 : (2 * 2 ^ (a - b - 1) == 2 ^ (a - b))%Q).
  { rewrite <- pow2_succ. replace (a - b - 1 + 1) with (a - b) by lia. reflexivity. }
  pose proof (pow2_pos (a - b - 1)) as HK1pos.
  set (K := (2 ^ (a - b))%Q) in *. set (B := (2 ^ b)%Q) in *.
  set (A := (2 ^ a)%Q) in *. set (K1 := (2 ^ (a - b - 1))%Q) in *.
  assert (Hlow : (K1 <= x)%Q).
  { apply Qnot_lt_le. intros Hc. nra. }
  assert (Hhigh : (x < 2 * K)%Q).
  { apply Qnot_le_lt. intros Hc. nra. }
  case_Qlt x K.
  - replace (a - b - 1 + 1) with (a - b) by lia. fold K K1. split; assumption.
  - rewrite HK2. fold K. split; assumption.
Qed.

Lemma mag_unique (x : Q) (k : Z) :
  (2 ^ k <= x < 2 ^ (k + 1))%Q -> mag x = k.
Proof.
  intros [H1 H2].
  assert (Hx : (0 < x)%Q) by (pose proof (pow2_pos k); lra).
  destruct (mag_spec x Hx) as [H3 H4].
  assert (mag x < k + 1) by (apply pow2_lt_inv; lra).
  assert (k < mag x + 1) by (apply pow2_lt_inv; lra).
  lia.
Qed.

Lemma mag_proper (x y : Q) : (0 < x)%Q -> (x == y)%Q -> mag x = mag y.
Proof.
  intros Hx H. symmetry. apply mag_unique. rewrite <- H. apply mag_spec, Hx.
Qed.

Lemma mag_mono (x y : Q) : (0 < x)%Q -> (x <= y)%Q -> mag x <= mag y.
Proof.
  intros Hx H.
  destruct (mag_spec x Hx) as [H1 _].
  destruct (mag_spec y) as [_ H2]; [lra |].
  assert (mag x < mag y + 1) by (apply pow2_lt_inv; lra). lia.
Qed.

Lemma round_half_even_Z (z : Z) : round_half_even (inject_Z z) = z.
Proof.
  apply Z.le_antisymm.
  - apply round_half_even_upper. lra.
  - apply round_half_even_lower. lra.
Qed.

Lemma round_half_even_mono (x y : Q) :
  (x <= y)%Q -> round_half_even x <= round_half_even y.
Proof.
  intros Hxy.
  pose proof (Qfloor_resp_le x y Hxy) as Hfloor.
  destruct (Z.eq_dec (Qfloor x) (Qfloor y)) as [Heq | Hne].
  - unfold round_half_even. rewrite Heq.
    case_Qlt (x - inject_Z (Qfloor y))%Q (1 # 2)%Q.
    + case_Qlt (y - inject_Z (Qfloor y))%Q (1 # 2)%Q; [lia |].
      case_Qlt (1 # 2)%Q (y - inject_Z (Qfloor y))%Q; [lia |].
      destruct (Z.even (Qfloor y)); lia.
    + case_Qlt (y - inject_Z (Qfloor y))%Q (1 # 2)%Q; [lra |].
      case_Qlt (1 # 2)%Q (x - inject_Z (Qfloor y))%Q.
      * case_Qlt (1 # 2)%Q (y - inject_Z (Qfloor y))%Q; [lia | lra].
      * case_Qlt (1 # 2)%Q (y - inject_Z (Qfloor y))%Q;
          destruct (Z.even (Qfloor y)); lia.
  - assert (Hlt : Qfloor x + 1 <= Qfloor y) by lia.
    destruct (round_half_even_cases x) as [[-> _] | [-> _]];
      destruct (round_half_even_cases y) as [[-> _] | [-> _]]; lia.
Qed.

(** Rounding to [prec] binary digits. *)
Section Rounding.

Variable prec : Z.
Hypothesis prec_positive : 1 <= prec.

Lemma rnd_zero (x : Q) : (x == 0)%Q -> rnd prec x = 0%Q.
Proof.
  intros H. unfold rnd. apply Qeq_bool_iff in H. rewrite H. reflexivity.
Qed.

Lemma rnd_value (x : Q) :
  ~ (x == 0)%Q ->
  (rnd prec x == inject_Z (round_half_even (x / 2 ^ exponent prec x)) * 2 ^ exponent prec x)%Q.
Proof.
  intros H. unfold rnd, exponent.
  destruct (Qeq_bool x 0) eqn:E; [apply Qeq_bool_iff in E; contradiction |].
  apply Qred_correct.
Qed.

Lemma rnd_proper (x y : Q) : (x == y)%Q -> rnd prec x = rnd prec y.
Proof.
  intros H. unfold rnd.
  assert (Hz : Qeq_bool x 0 = Qeq_bool y 0).
  { apply Bool.eq_true_iff_eq. rewrite !Qeq_bool_iff, H. reflexivity. }
  rewrite <- Hz. destruct (Qeq_bool x 0) eqn:E; [reflexivity |].
  assert (Hx : ~ (x == 0)%Q) by (intros Hc; apply Qeq_bool_iff in Hc; congruence).
  assert (Habs : (0 < Qabs x)%Q).
  { pose proof (Qabs_nonneg x). destruct (Qeq_dec (Qabs x) 0) as [Hc | Hc]; [| lra].
    exfalso. apply Hx. revert Hc. apply Qabs_case; intros; lra. }
  assert (Hm : exponent prec x = exponent prec y).
  { unfold exponent. f_equal.
    apply mag_proper; [exact Habs | rewrite H; reflexivity]. }
  rewrite <- Hm. apply Qred_complete.
  rewrite (round_half_even_proper (x / _) (y / 2 ^ exponent prec x));
    [reflexivity | apply Qdiv_comp; [exact H | reflexivity]].
Qed.

(** The scaled argument has [prec] digits before the point. *)
Lemma scaled_positive (x : Q) :
  (0 < x)%Q ->
  (x == x / 2 ^ exponent prec x * 2 ^ exponent prec x /\
   2 ^ mag x == 2 ^ (prec - 1) * 2 ^ exponent prec x /\
   2 ^ (mag x + 1) == 2 ^ prec * 2 ^ exponent prec x /\
   2 ^ (prec - 1) <= x / 2 ^ exponent prec x < 2 ^ prec)%Q.
Proof.
  intros Hx.
  assert (Hm : mag (Qabs x) = mag x) by (apply mag_proper; [| apply Qabs_pos]; 
    [rewrite Qabs_pos; lra | lra]).
  unfold exponent. rewrite Hm.
  set (e := mag x - (prec - 1)).
  pose proof (pow2_pos e) as He.
  destruct (mag_spec x Hx) as [H1 H2].
  assert (Hs : (2 ^ mag x == 2 ^ (prec - 1) * 2 ^ e)%Q).
  { rewrite <- pow2_add. replace (prec - 1 + e) with (mag x) by (unfold e; lia).
    reflexivity. }
  assert (Hs' : (2 ^ (mag x + 1) == 2 ^ prec * 2 ^ e)%Q).
  { rewrite <- pow2_add. replace (prec + e) with (mag x + 1) by (unfold e; lia).
    reflexivity. }
  assert (Hd : (x == x / 2 ^ e * 2 ^ e)%Q) by (field; lra).
  split; [exact Hd |]. split; [exact Hs |]. split; [exact Hs' |].
  set (y := (x / 2 ^ e)%Q) in *.
  pose proof (pow2_pos (prec - 1)). pose proof (pow2_pos prec).
  split.
  - apply Qnot_lt_le. intros Hc. nra.
  - apply Qnot_le_lt. intros Hc. nra.
Qed.

Lemma rnd_positive_bounds (x : Q) :
  (0 < x)%Q -> (2 ^ mag x <= rnd prec x <= 2 ^ (mag x + 1))%Q.
Proof.
  intros Hx.
  destruct (scaled_positive x Hx) as (Hd & Hs & Hs' & Hlo & Hhi).
  rewrite rnd_value by lra.
  set (e := exponent prec x) in *. set (y := (x / 2 ^ e)%Q) in *.
  pose proof (pow2_pos e) as He.
  assert (H1 : 2 ^ (prec - 1) <= round_half_even y).
  { apply round_half_even_lower. rewrite pow2_Z by lia. exact Hlo. }
  assert (H2 : round_half_even y <= 2 ^ prec).
  { apply round_half_even_upper. rewrite pow2_Z by lia. lra. }
  rewrite Zle_Qle, pow2_Z in H1 by lia. rewrite Zle_Qle, pow2_Z in H2 by lia.
  rewrite Hs, Hs'. split; nra.
Qed.

Lemma exponent_opp (x : Q) : ~ (x == 0)%Q -> exponent prec (- x) = exponent prec x.
Proof.
  intros Hx. unfold exponent. f_equal. apply mag_proper.
  - pose proof (Qabs_nonneg (- x)).
    destruct (Qeq_dec (Qabs (- x)) 0) as [Hc | Hc]; [| lra].
    exfalso. apply Hx. revert Hc. apply Qabs_case; intros; lra.
  - apply Qabs_opp.
Qed.

Lemma exponent_positive (x : Q) : (0 < x)%Q -> exponent prec x = mag x - (prec - 1).
Proof.
  intros Hx. unfold exponent. f_equal.
  apply mag_proper; [rewrite Qabs_pos; lra | apply Qabs_pos; lra].
Qed.

Lemma rnd_negative_bounds (x : Q) :
  (x < 0)%Q -> (- 2 ^ (mag (- x) + 1) <= rnd prec x <= - 2 ^ mag (- x))%Q.
Proof.
  intros Hx.
  assert (Hpos : (0 < - x)%Q) by lra.
  destruct (scaled_positive (- x) Hpos) as (Hd & Hs & Hs' & Hlo & Hhi).
  rewrite rnd_value by lra.
  rewrite exponent_opp in * by lra.
  set (e := exponent prec x) in *.
  pose proof (pow2_pos e) as He.
  assert (Hy : (- x / 2 ^ e == - (x / 2 ^ e))%Q) by (field; lra).
  rewrite Hy in Hlo, Hhi.
  set (y := (x / 2 ^ e)%Q) in *.
  assert (H1 : round_half_even y <= - 2 ^ (prec - 1)).
  { apply round_half_even_upper. rewrite inject_Z_opp, pow2_Z by lia. lra. }
  assert (H2 : - 2 ^ prec <= round_half_even y).
  { apply round_half_even_lower. rewrite inject_Z_opp, pow2_Z by lia. lra. }
  rewrite Zle_Qle, inject_Z_opp, pow2_Z in H1 by lia.
  rewrite Zle_Qle, inject_Z_opp, pow2_Z in H2 by lia.
  rewrite Hs, Hs'. split; nra.
Qed.

Lemma rnd_sign_positive (x : Q) : (0 < x)%Q -> (0 < rnd prec x)%Q.
Proof.
  intros Hx. destruct (rnd_positive_bounds x Hx) as [H _].
  pose proof (pow2_pos (mag x)). lra.
Qed.

Lemma rnd_sign_negative (x : Q) : (x < 0)%Q -> (rnd prec x < 0)%Q.
Proof.
  intros Hx. destruct (rnd_negative_bounds x Hx) as [_ H].
  pose proof (pow2_pos (mag (- x))). lra.
Qed.

Lemma rnd_same_exponent (x y : Q) :
  ~ (x == 0)%Q -> ~ (y == 0)%Q -> exponent prec x = exponent prec y ->
  (x <= y)%Q -> (rnd prec x <= rnd prec y)%Q.
Proof.
  intros Hx Hy He Hxy. rewrite !rnd_value by assumption. rewrite He.
  pose proof (pow2_pos (exponent prec y)) as Hp.
  assert (Hs : (x / 2 ^ exponent prec y <= y / 2 ^ exponent prec y)%Q).
  { apply Qmult_le_compat_r; [exact Hxy |]. apply Qlt_le_weak, Qinv_lt_0_compat, Hp. }
  apply round_half_even_mono in Hs. rewrite Zle_Qle in Hs.
  apply Qmult_le_compat_r; [exact Hs | lra].
Qed.

(** Rounding keeps the order. *)
Lemma rnd_mono (x y : Q) : (x <= y)%Q -> (rnd prec x <= rnd prec y)%Q.
Proof.
  intros Hxy.
  destruct (Q_dec x 0) as [[Hx | Hx] | Hx].
  - (* x negative *)
    destruct (Q_dec y 0) as [[Hy | Hy] | Hy].
    + assert (Hm : mag (- y) <= mag (- x)) by (apply mag_mono; lra).
      destruct (Z.eq_dec (mag (- y)) (mag (- x))) as [Heq | Hne].
      * apply rnd_same_exponent; [lra | lra | | exact Hxy].
        rewrite <- (exponent_opp x), <- (exponent_opp y) by lra.
        rewrite !exponent_positive by lra. lia.
      * destruct (rnd_negative_bounds x Hx) as [_ H1].
        destruct (rnd_negative_bounds y Hy) as [H2 _].
        assert (H3 : (2 ^ (mag (- y) + 1) <= 2 ^ mag (- x))%Q) by (apply pow2_le; lia).
        lra.
    + pose proof (rnd_sign_negative x Hx). pose proof (rnd_sign_positive y Hy). lra.
    + pose proof (rnd_sign_negative x Hx). rewrite (rnd_zero y Hy). lra.
  - (* x positive *)
    assert (Hy : (0 < y)%Q) by lra.
    assert (Hm : mag x <= mag y) by (apply mag_mono; lra).
    destruct (Z.eq_dec (mag x) (mag y)) as [Heq | Hne].
    + apply rnd_same_exponent; [lra | lra | | exact Hxy].
      rewrite !exponent_positive by lra. lia.
    + destruct (rnd_positive_bounds x Hx) as [_ H1].
      destruct (rnd_positive_bounds y Hy) as [H2 _].
      assert (H3 : (2 ^ (mag x + 1) <= 2 ^ mag y)%Q) by (apply pow2_le; lia).
      lra.
  - (* x zero *)
    rewrite (rnd_zero x Hx).
    destruct (Q_dec y 0) as [[Hy | Hy] | Hy]; [lra | |].
    + pose proof (rnd_sign_positive y Hy). lra.
    + rewrite (rnd_zero y Hy). lra.
Qed.

(** A number with at most [prec] binary digits is its own rounding. *)
Lemma rnd_exact (x : Q) (m k : Z) :
  (x == inject_Z m * 2 ^ k)%Q -> Z.abs m < 2 ^ prec -> (rnd prec x == x)%Q.
Proof.
  intros Hx Hm.
  destruct (Qeq_dec x 0) as [H0 | H0]; [rewrite (rnd_zero x H0), H0; reflexivity |].
  rewrite rnd_value by exact H0.
  set (e := exponent prec x).
  assert (He : e <= k).
  { assert (Habs : (0 < Qabs x)%Q).
    { pose proof (Qabs_nonneg x). destruct (Qeq_dec (Qabs x) 0) as [Hc | Hc]; [| lra].
      exfalso. apply H0. revert Hc. apply Qabs_case; intros; lra. }
    destruct (mag_spec (Qabs x) Habs) as [H1 _].
    assert (H2 : (Qabs x < 2 ^ (prec + k))%Q).
    { rewrite Hx, Qabs_Qmult, pow2_add.
      rewrite (Qabs_pos (2 ^ k)) by (apply Qlt_le_weak, pow2_pos).
      apply Qmult_lt_compat_r; [apply pow2_pos |].
      rewrite <- pow2_Z by lia.
      assert (Hz : (Qabs (inject_Z m) == inject_Z (Z.abs m))%Q).
      { unfold Qabs, inject_Z. cbn. reflexivity. }
      rewrite Hz, <- Zlt_Qlt. exact Hm. }
    assert (mag (Qabs x) < prec + k) by (apply pow2_lt_inv; lra).
    unfold e, exponent. lia. }
  assert (Hk : (2 ^ k == inject_Z (2 ^ (k - e)) * 2 ^ e)%Q).
  { rewrite pow2_Z by lia. rewrite <- pow2_add.
    replace (k - e + e) with k by lia. reflexivity. }
  pose proof (pow2_pos e) as Hpe.
  assert (Hy : (x / 2 ^ e == inject_Z (m * 2 ^ (k - e)))%Q).
  { rewrite Hx, Hk, inject_Z_mult. field. lra. }
  rewrite (round_half_even_proper _ _ Hy), round_half_even_Z.
  rewrite Hx, Hk, inject_Z_mult. ring.
Qed.

Lemma rnd_exact_Z (n : Z) :
  Z.abs n < 2 ^ prec -> (rnd prec (inject_Z n) == inject_Z n)%Q.
Proof.
  intros H. apply (rnd_exact _ n 0); [| exact H].
  change (2 ^ 0)%Q with 1%Q. ring.
Qed.

End Rounding.

(** ** Binary64 *)

Lemma double_proper (x y : Q) : (x == y)%Q -> double x = double y.
Proof. apply rnd_proper. Qed.

Lemma double_mono (x y : Q) : (x <= y)%Q -> (double x <= double y)%Q.
Proof. apply rnd_mono. lia. Qed.

Lemma double_exact (x : Q) (m k : Z) :
  (x == inject_Z m * 2 ^ k)%Q -> Z.abs m < 2 ^ 53 -> (double x == x)%Q.
Proof. apply rnd_exact. lia. Qed.

Lemma double_Z (n : Z) : Z.abs n < 2 ^ 53 -> (double (inject_Z n) == inject_Z n)%Q.
Proof. apply rnd_exact_Z. lia. Qed.

Lemma double_positive (x : Q) : (0 < x)%Q -> (0 < double x)%Q.
Proof. apply rnd_sign_positive. lia. Qed.

Lemma double_negative (x : Q) : (x < 0)%Q -> (double x < 0)%Q.
Proof. apply rnd_sign_negative. lia. Qed.

Lemma double_zero (x : Q) : (x == 0)%Q -> double x = 0%Q.
Proof. apply rnd_zero. Qed.

(** Only zero is rounded to zero. *)
Lemma double_eq_zero (x : Q) : (double x == 0)%Q <-> (x == 0)%Q.
Proof.
  split; intros H.
  - destruct (Q_dec x 0) as [[Hx | Hx] | Hx]; [| | exact Hx].
    + pose proof (double_negative x Hx). lra.
    + pose proof (double_positive x Hx). lra.
  - rewrite (double_zero x H). reflexivity.
Qed.

(** A bound that is a float stays a bound after rounding. *)
Lemma double_lower (lo x : Q) :
  (double lo == lo)%Q -> (lo <= x)%Q -> (lo <= double x)%Q.
Proof. intros H Hx. rewrite <- H. apply double_mono, Hx. Qed.

Lemma double_upper (hi x : Q) :
  (double hi == hi)%Q -> (x <= hi)%Q -> (double x <= hi)%Q.
Proof. intros H Hx. rewrite <- H. apply double_mono, Hx. Qed.

(** ** [round(x, 1)] *)

(** One decimal place: the value of [round(x, 1)]. *)
Lemma py_round1_value (x : Q) :
  py_round 1 x = double (inject_Z (round_half_even (x * 10)) / 10).
Proof. reflexivity. Qed.

Lemma py_round_proper (n : nat) (x y : Q) :
  (x == y)%Q -> py_round n x = py_round n y.
Proof.
  intros H. unfold py_round.
  set (p := inject_Z (10 ^ Z.of_nat n)).
  rewrite (round_half_even_proper (x * p) (y * p)); [reflexivity |].
  rewrite H. reflexivity.
Qed.

Lemma py_round1_mono (x y : Q) : (x <= y)%Q -> (py_round 1 x <= py_round 1 y)%Q.
Proof.
  intros H. rewrite !py_round1_value. apply double_mono. tenths.
  assert (Hr : round_half_even (x * 10) <= round_half_even (y * 10))
    by (apply round_half_even_mono; lra).
  rewrite Zle_Qle in Hr. lra.
Qed.

(** The result is the float of the number of tenths nearest to the
    argument. *)
Lemma py_round1_tenth (x : Q) : rounded_to_tenth (py_round 1 x) x.
Proof.
  exists (round_half_even (x * 10)). split; [apply py_round1_value |].
  pose proof (round_half_even_error (x * 10)) as H.
  pose proof (round_half_even_tie (x * 10)) as Ht.
  assert (Hs : (inject_Z (round_half_even (x * 10)) - x * 10
                == 10 * (inject_Z (round_half_even (x * 10)) / 10 - x))%Q)
    by (field; discriminate).
  rewrite Hs, Qabs_Qmult in H, Ht. change (Qabs 10) with 10%Q in H, Ht.
  set (a := Qabs (inject_Z (round_half_even (x * 10)) / 10 - x)) in *.
  split; [lra |].
  intros Htie. apply Ht. rewrite Htie. reflexivity.
Qed.

(** Rounding to one decimal keeps a value above a bound that is a number
    of tenths and a float, and below such a bound. *)
Lemma py_round1_lower (n : Z) (lo x : Q) :
  (lo == inject_Z n / 10)%Q -> (double lo == lo)%Q ->
  (lo <= x)%Q -> (lo <= py_round 1 x)%Q.
Proof.
  intros Hn Hd Hlo. rewrite py_round1_value. apply double_lower; [exact Hd |].
  rewrite Hn in *. tenths.
  assert (H1 : n <= round_half_even (x * 10))
    by (apply round_half_even_lower; lra).
  rewrite Zle_Qle in H1. lra.
Qed.


End NumFacts.

Import NumFacts.

(** * The taxonomy table and the clamp *)

Lemma FOOD_CLASSES_weight_pos (key : string) (info : FoodClassInfo) :
  FOOD_CLASSES !! key = Some info -> 0 < default_weight info.
Proof.
  unfold FOOD_CLASSES. intros H. apply elem_of_list_to_map_2 in H.
  repeat (apply elem_of_cons in H as [H | H];
          [injection H as _ ->; simpl; lia |]).
  apply elem_of_nil in H. contradiction.
Qed.

Lemma FOOD_CLASSES_weight_max (key : string) (info : FoodClassInfo) :
  FOOD_CLASSES !! key = Some info -> default_weight info <= 244.
Proof.
  unfold FOOD_CLASSES. intros H. apply elem_of_list_to_map_2 in H.
  repeat (apply elem_of_cons in H as [H | H];
          [injection H as _ ->; simpl; lia |]).
  apply elem_of_nil in H. contradiction.
Qed.

(** The default weight is a positive whole number of grams. *)
Lemma default_weight_of_integral (food_name : string) :
  exists n : Z, 0 < n /\ default_weight_of food_name = inject_Z n.
Proof.
  unfold default_weight_of.
  destruct (FOOD_CLASSES !! food_name) as [info |] eqn:E.
  - exists (default_weight info). split; [| reflexivity].
    apply (FOOD_CLASSES_weight_pos food_name), E.
  - exists 100. split; [lia | reflexivity].
Qed.

Lemma default_weight_of_bounded (food_name : string) :
  exists n : Z, 0 < n <= 244 /\ default_weight_of food_name = inject_Z n.
Proof.
  unfold default_weight_of.
  destruct (FOOD_CLASSES !! food_name) as [info |] eqn:E.
  - exists (default_weight info). split; [| reflexivity]. split.
    + apply (FOOD_CLASSES_weight_pos food_name), E.
    + apply (FOOD_CLASSES_weight_max food_name), E.
  - exists 100. split; [lia | reflexivity].
Qed.

(** A default weight, its half and its double are floats: the conversion
    of the weight to a float and the products at the two ends of the clamp
    are exact. *)
Lemma small_integer_is_float (n : Z) :
  0 < n <= 244 ->
  (double (inject_Z n) == inject_Z n /\
   double (0.5 * inject_Z n) == 0.5 * inject_Z n /\
   double (2 * inject_Z n) == 2 * inject_Z n)%Q.
Proof.
  intros Hn.
  assert (Hs : Z.abs n < 2 ^ 53) by (change (2 ^ 53) with 9007199254740992; lia).
  split; [apply double_Z, Hs |]. split.
  - apply (double_exact _ n (-1)); [| exact Hs].
    change (2 ^ (-1))%Q with (1 # 2)%Q. ring.
  - apply (double_exact _ n 1); [| exact Hs].
    change (2 ^ 1)%Q with 2%Q. ring.
Qed.

Lemma default_weight_of_float (food_name : string) :
  (double (default_weight_of food_name) == default_weight_of food_name)%Q.
Proof.
  destruct (default_weight_of_bounded food_name) as (n & Hn & ->).
  apply small_integer_is_float, Hn.
Qed.

(** The float product of the weight and a factor. *)
Lemma weight_product (food_name : string) (s : Q) :
  fmul (double (default_weight_of food_name)) s = fmul (default_weight_of food_name) s.
Proof.
  unfold fmul. apply double_proper.
  rewrite default_weight_of_float. reflexivity.
Qed.

Lemma clamp_low (r : Q) : (r < 0.5)%Q -> clamp r = 0.5%Q.
Proof.
  intros H. unfold clamp, py_min, py_max.
  case_Qlt r 2.0%Q; [| lra].
  case_Qlt 0.5%Q r; [lra | reflexivity].
Qed.

Lemma clamp_high (r : Q) : (2 < r)%Q -> clamp r = 2.0%Q.
Proof.
  intros H. unfold clamp, py_min, py_max.
  case_Qlt r 2.0%Q; [lra |].
  case_Qlt 0.5%Q 2.0%Q; [reflexivity | lra].
Qed.

Lemma clamp_mid (r : Q) : (0.5 <= r <= 2)%Q -> (clamp r == r)%Q.
Proof.
  intros [Hlo Hhi]. unfold clamp, py_min, py_max.
  case_Qlt r 2.0%Q.
  - case_Qlt 0.5%Q r; [reflexivity | lra].
  - case_Qlt 0.5%Q 2.0%Q; lra.
Qed.

Lemma clamp_bounds (r : Q) : (0.5 <= clamp r <= 2)%Q.
Proof.
  destruct (Qlt_le_dec r 0.5) as [H | H].
  - rewrite (clamp_low r H). lra.
  - destruct (Qlt_le_dec 2 r) as [H' | H'].
    + rewrite (clamp_high r H'). lra.
    + rewrite (clamp_mid r (conj H H')). lra.
Qed.

(** The float product of a default weight and a factor of the clamp lies
    between half and twice the weight. *)
Lemma weight_product_bounds (food_name : string) (s : Q) :
  (0.5 <= s <= 2)%Q ->
  let w := default_weight_of food_name in
  (0.5 * w <= fmul w s <= 2 * w)%Q.
Proof.
  intros [Hlo Hhi] w. subst w.
  destruct (default_weight_of_bounded food_name) as (n & Hn & ->).
  destruct (small_integer_is_float n Hn) as (_ & Hhalf & Htwice).
  assert (Hq : (inject_Z 0 < inject_Z n)%Q) by (rewrite <- Zlt_Qlt; lia).
  change (inject_Z 0) with 0%Q in Hq.
  unfold fmul. split.
  - apply double_lower; [exact Hhalf | nra].
  - apply double_upper; [exact Htwice | nra].
Qed.


Lemma image_area_nonzero (image : ndarray) :
  0 < shape0 image -> 0 < shape1 image ->
  Qeq_bool (double (inject_Z (shape0 image * shape1 image))) 0 = false.
Proof.
  intros H0 H1.
  destruct (Qeq_bool _ 0) eqn:E; [| reflexivity].
  apply Qeq_bool_iff in E. apply (proj1 (double_eq_zero _)) in E.
  change 0%Q with (inject_Z 0) in E. apply (proj1 (inject_Z_injective _ _)) in E.
  nia.
Qed.

Lemma image_area_positive (image : ndarray) :
  0 < shape0 image -> 0 < shape1 image ->
  (0 < double (inject_Z (shape0 image * shape1 image)))%Q.
Proof.
  intros H0 H1. apply double_positive.
  change 0%Q with (inject_Z 0). rewrite <- Zlt_Qlt. nia.
Qed.

(** What [_estimate_portion] returns, as one equation. *)
Lemma _estimate_portion_unfold
    (self : FoodDetectionService) (image : ndarray) (food_name : string) (b : bbox) :
  0 < shape0 image -> 0 < shape1 image ->
  _estimate_portion self image food_name b =
  Returns (round_float 1
    match depth_estimation (model_loader self) with
    | Some depth_model =>
        blend (area_weight image food_name b)
          (_depth_based_estimation image b depth_model)
    | None => Fin (area_weight image food_name b)
    end).
Proof.
  intros H0 H1. unfold _estimate_portion, py_div.
  rewrite (image_area_nonzero image H0 H1). reflexivity.
Qed.

(** The unrounded area estimate with the weight as the table has it. *)
Lemma area_weight_value (image : ndarray) (food_name : string) (b : bbox) :
  area_weight image food_name b =
  fmul (default_weight_of food_name) (clamp (scale_ratio image b)).
Proof. apply weight_product. Qed.

(** * The area estimate *)



(** C10.  Without a depth model the estimate is a function of the shape of
    the image, the box and the food key: two images of the same shape get
    the same answer, whatever their pixels. *)
Theorem estimate_ignores_pixels
    (self : FoodDetectionService) (image1 image2 : ndarray)
    (food_name : string) (b : bbox) :
  depth_estimation (model_loader self) = None ->
  shape0 image1 = shape0 image2 ->
  shape1 image1 = shape1 image2 ->
  _estimate_portion self image1 food_name b =
  _estimate_portion self image2 food_name b.
Proof.
  intros Hdepth H0 H1. unfold _estimate_portion.
  rewrite Hdepth, H0, H1. reflexivity.
Qed.

Lemma estimate_ignores_pixels_witness :
  _estimate_portion (Scenario.service "apple" [] None)
    (np_array Scenario.photo) "apple" (100, 100, 400, 400)%Q =
  _estimate_portion (Scenario.service "apple" [] None)
    (np_array Scenario.photo') "apple" (100, 100, 400, 400)%Q.
Proof.
  apply estimate_ignores_pixels; reflexivity.
Defined.

(** C6.  A 1000 x 1000 image with one "apple" box (100,100)-(400,400) at
    confidence 0.9 and no depth provider: area ratio 0.09, scale factor 0.6,
    default weight 182 g, and 109.2 g for the key "apple", each the float
    of that name. *)
Theorem apple_scenario :
  let self := Scenario.service "apple" [Scenario.the_box] None in
  let image := np_array Scenario.photo in
  let b := xyxy Scenario.the_box in
  let area_ratio :=
    fdiv (food_area b) (double (inject_Z (shape0 image * shape1 image))) in
  (food_area b == 90000)%Q /\
  (area_ratio == double 0.09)%Q /\
  (fdiv area_ratio typical_ratio == double 0.6)%Q /\
  (clamp (fdiv area_ratio typical_ratio) == double 0.6)%Q /\
  default_weight_of "apple" = 182%Q /\
  _estimate_portion self image "apple" b = Returns (Fin (double 109.2)) /\
  analyze_image Scenario.image_open self [] true =
  Returns {| detected_foods :=
               [ {| name := "apple";
                    confidence := double 0.9;
                    bounding_box :=
                      {| bb_x := 100; bb_y := 100;
                         bb_width := 300; bb_height := 300 |} |} ];
             portion_estimates := {[ "apple" := Fin (double 109.2) ]};
             image_dimensions := (1000, 1000) |}.
Proof.
  repeat split; vm_compute; reflexivity.
Qed.

(** * The depth stage and the blend *)


Lemma reject_noise_some (g : pyfloat) (d : Q) :
  reject_noise g = Some (Fin d) -> g = Fin d /\ (10 < d)%Q.
Proof.
  unfold reject_noise. destruct (np_gt g (Fin 10)) eqn:E; [| discriminate].
  intros [= ->]. split; [reflexivity |].
  apply Qlt_bool_iff. exact E.
Qed.

(** The depth stage never hands a finite weight of 10 g or less to the
    blend. *)
Lemma _depth_based_estimation_above_noise
    (image : ndarray) (b : bbox) (depth_model : DepthModel) (d : Q) :
  _depth_based_estimation image b depth_model = Returns (Some (Fin d)) ->
  (10 < d)%Q.
Proof.
  unfold _depth_based_estimation.
  destruct (depth_model image) as [depth_map | e]; [| discriminate].
  cbn. destruct (depth_weight depth_map b) as [g | e]; [| discriminate].
  cbn. intros [= H]. apply reject_noise_some in H. tauto.
Qed.







(** * The label mapper *)

(** A detection whose label maps to nothing, or to the empty string, leaves
    both accumulators as they are. *)
Lemma analyze_box_dropped {U : UnicodeData}
    (self : FoodDetectionService) (include_portion_estimate : bool)
    (image : ndarray) (nm : gmap Z string) (acc : Acc) (box : Box) :
  (exists label, nm !! cls box = Some label) ->
  food_key nm box = None ->
  analyze_box self include_portion_estimate image nm acc box = Returns acc.
Proof.
  intros [label Hnm] Hkey. unfold food_key in Hkey. rewrite Hnm in Hkey.
  unfold analyze_box, class_name_of. rewrite Hnm. cbn.
  destruct (xyxy box) as [[[x1 y1] x2] y2]. rewrite Hkey. reflexivity.
Qed.

(** On ASCII text the case tables play no part. *)
Lemma lower_ascii {U : UnicodeData} (s : string) :
  is_ascii s = true -> lower s = ascii_lower s.
Proof. intros H. unfold lower. rewrite H. reflexivity. Qed.

(** C4, as the claim has it: a label outside both tables would come back
    unchanged.  "Carrot" is in neither table and comes back in lower
    case. *)
Lemma unlisted_label_is_lowercased :
  FOOD_CLASSES !! lower "Carrot" = None /\
  mappings !! lower "Carrot" = None /\
  _map_to_food_class "Carrot" = Some "carrot" /\
  _map_to_food_class "Carrot" <> Some "Carrot".
Proof.
  repeat split; try (vm_compute; reflexivity).
  vm_compute. discriminate.
Qed.

(** C4, amended.  The mapper lower-cases the label as [str.lower] does,
    whatever the alphabet; a lower-cased label in the taxonomy table is the
    result; otherwise the alias table decides ("hot dog" to "hotdog", "cup"
    to "coffee", "bowl" to "soup", "plate" to nothing); a label in neither
    table comes back lower-cased.  A label mapped to nothing adds no entry
    to the detected foods or to the portion estimates. *)
Theorem label_mapping {U : UnicodeData} (label : string) :
  (forall info, FOOD_CLASSES !! lower label = Some info ->
     _map_to_food_class label = Some (lower label)) /\
  (FOOD_CLASSES !! lower label = None ->
     forall image, mappings !! lower label = Some image ->
       _map_to_food_class label = image) /\
  (FOOD_CLASSES !! lower label = None -> mappings !! lower label = None ->
     _map_to_food_class label = Some (lower label)) /\
  (_map_to_food_class "hot dog" = Some "hotdog" /\
   _map_to_food_class "cup" = Some "coffee" /\
   _map_to_food_class "bowl" = Some "soup" /\
   _map_to_food_class "plate" = None) /\
  (_map_to_food_class label = None ->
     forall self include_portion_estimate image nm acc box,
       nm !! cls box = Some label ->
       analyze_box self include_portion_estimate image nm acc box = Returns acc) /\
  (exists result,
     analyze_image Scenario.image_open
       (Scenario.service "plate" [Scenario.the_box] None) [] true = Returns result /\
     detected_foods result = [] /\ portion_estimates result = ∅).
Proof.
  unfold _map_to_food_class.
  split; [intros info H; rewrite H; reflexivity |].
  split; [intros H image Ha; rewrite H, Ha; reflexivity |].
  split; [intros H Ha; rewrite H, Ha; reflexivity |].
  split; [repeat split; vm_compute; reflexivity |].
  split.
  - intros Hnone self inc image nm acc box Hnm.
    apply analyze_box_dropped; [eauto |].
    unfold food_key, _map_to_food_class. rewrite Hnm, Hnone. reflexivity.
  - eexists. split; [vm_compute; reflexivity |]. split; reflexivity.
Qed.

Lemma label_mapping_witness :
  _map_to_food_class "APPLE" = Some "apple" /\
  _map_to_food_class "Hot Dog" = Some "hotdog" /\
  _map_to_food_class "Carrot" = Some "carrot" /\
  _map_to_food_class "Éclair" = Some "éclair".
Proof.
  split; [| split; [| split]].
  - apply (proj1 (label_mapping "APPLE") (food 52 182)). vm_compute. reflexivity.
  - apply (proj1 (proj2 (label_mapping "Hot Dog"))); vm_compute; reflexivity.
  - apply (proj1 (proj2 (proj2 (label_mapping "Carrot")))); vm_compute; reflexivity.
  - change (Some "éclair") with (Some (lower "Éclair")).
    apply (proj1 (proj2 (proj2 (label_mapping "Éclair")))); vm_compute; reflexivity.
Defined.

(** * Boxes of degenerate geometry *)

(** C5, as the claim has it: a box without width would leave no trace.  The
    apple box squeezed to no width is listed among the detected foods and
    gets a portion estimate, half the default weight. *)
Lemma degenerate_box_is_kept :
  degenerate Scenario.photo (xyxy Scenario.flat_box) = true /\
  analyze_image Scenario.image_open
    (Scenario.service "apple" [Scenario.flat_box] None) [] true =
  Returns {| detected_foods :=
               [ {| name := "apple";
                    confidence := double 0.9;
                    bounding_box :=
                      {| bb_x := 100; bb_y := 100;
                         bb_width := 0; bb_height := 300 |} |} ];
             portion_estimates := {[ "apple" := Fin 91 ]};
             image_dimensions := (1000, 1000) |}.
Proof.
  split; vm_compute; reflexivity.
Qed.

(** A box without width or height has no area. *)
Lemma food_area_of_empty_box (x1 y1 x2 y2 : Q) :
  (x1 == x2 \/ y1 == y2)%Q -> food_area (x1, y1, x2, y2) = 0%Q.
Proof.
  intros H. unfold food_area, fmul, fsub. apply double_zero.
  destruct H as [H | H].
  - rewrite (double_zero (x2 - x1)) by (rewrite H; ring). ring.
  - rewrite (double_zero (y2 - y1)) by (rewrite H; ring). ring.
Qed.

Lemma clamp_of_empty_box (image : ndarray) (x1 y1 x2 y2 : Q) :
  (x1 == x2 \/ y1 == y2)%Q ->
  clamp (scale_ratio image (x1, y1, x2, y2)) = 0.5%Q.
Proof.
  intros H. apply clamp_low. unfold scale_ratio.
  rewrite (food_area_of_empty_box x1 y1 x2 y2 H). unfold fdiv.
  rewrite (double_zero (_ / typical_ratio)); [reflexivity |].
  rewrite (double_zero (0 / _)); unfold Qdiv; ring.
Qed.

(** Half a default weight is a float: the product is exact. *)
Lemma half_weight_rounded (food_name : string) :
  py_round 1 (fmul (double (default_weight_of food_name)) 0.5)
  = py_round 1 (default_weight_of food_name * 0.5).
Proof.
  apply py_round_proper. rewrite weight_product. unfold fmul.
  destruct (default_weight_of_bounded food_name) as (n & Hn & ->).
  destruct (small_integer_is_float n Hn) as (_ & Hhalf & _).
  rewrite (double_proper (inject_Z n * 0.5) (0.5 * inject_Z n)) by ring.
  rewrite Hhalf. ring.
Qed.

(** C5, amended.  The loop has no test on the geometry of a box.  A box of
    degenerate geometry whose label maps to a food key is appended to the
    detected foods with its truncated corner and size, and, when portions
    are asked for, an estimate is stored for its key; nothing is raised.
    Without width or height, and without a depth model, that estimate is
    half the default weight, rounded. *)
Theorem degenerate_box_is_processed {U : UnicodeData}
    (self : FoodDetectionService) (include_portion_estimate : bool)
    (image : PILImage) (nm : gmap Z string) (acc : Acc) (box : Box)
    (label food_name : string) (x1 y1 x2 y2 : Q) :
  0 < width image -> 0 < height image ->
  xyxy box = (x1, y1, x2, y2) ->
  degenerate image (xyxy box) = true ->
  nm !! cls box = Some label ->
  truthy_name (_map_to_food_class label) = Some food_name ->
  exists portion,
    _estimate_portion self (np_array image) food_name (x1, y1, x2, y2)
    = Returns portion /\
    analyze_box self include_portion_estimate (np_array image) nm acc box =
    Returns
      {| acc_foods :=
           (acc_foods acc ++
            [ {| name := food_name;
                 confidence := py_round 3 (conf box);
                 bounding_box :=
                   {| bb_x := py_int x1; bb_y := py_int y1;
                      bb_width := py_int (fsub x2 x1);
                      bb_height := py_int (fsub y2 y1) |} |} ])%list;
         acc_portions :=
           if include_portion_estimate
           then <[food_name := portion]> (acc_portions acc)
           else acc_portions acc |} /\
    ((x1 == x2 \/ y1 == y2)%Q ->
     depth_estimation (model_loader self) = None ->
     portion = Fin (py_round 1 (default_weight_of food_name * 0.5))).
Proof.
  intros Hw Hh Hbox _ Hnm Hkey.
  pose proof (_estimate_portion_unfold self (np_array image) food_name
                (x1, y1, x2, y2) Hh Hw) as Hest.
  eexists. split; [exact Hest |]. split.
  - unfold analyze_box, class_name_of. rewrite Hnm. cbn.
    rewrite Hbox, Hkey. destruct include_portion_estimate; [| reflexivity].
    rewrite Hest. reflexivity.
  - intros Hflat Hdepth. rewrite Hdepth. unfold area_weight.
    rewrite (clamp_of_empty_box (np_array image) x1 y1 x2 y2 Hflat).
    cbn [round_float]. rewrite half_weight_rounded. reflexivity.
Qed.

Lemma degenerate_box_is_processed_witness :
  exists portion,
    _estimate_portion (Scenario.service "apple" [Scenario.flat_box] None)
      (np_array Scenario.photo) "apple" (100, 100, 100, 400)%Q = Returns portion /\
    portion = Fin (py_round 1 (default_weight_of "apple" * 0.5)).
Proof.
  destruct (degenerate_box_is_processed
              (Scenario.service "apple" [Scenario.flat_box] None) true
              Scenario.photo {[ 47 := "apple" ]} empty_acc Scenario.flat_box
              "apple" "apple" 100 100 100 400)
    as (portion & Hest & _ & Hhalf).
  - simpl. lia.
  - simpl. lia.
  - reflexivity.
  - vm_compute. reflexivity.
  - vm_compute. reflexivity.
  - vm_compute. reflexivity.
  - exists portion. split; [exact Hest |].
    apply Hhalf; [left |]; reflexivity.
Defined.

(** * The loop over the detections *)

Section Loop.

Context {U : UnicodeData}.

Variable self : FoodDetectionService.
Variable include_portion_estimate : bool.
Variable image_np : ndarray.

Lemma analyze_boxes_flat (nm : gmap Z string) (bs : list Box) (acc : Acc) :
  analyze_boxes self include_portion_estimate image_np nm acc bs =
  analyze_detections self include_portion_estimate image_np acc
    (map (fun box => (nm, box)) bs).
Proof.
  revert acc. induction bs as [| box rest IH]; intros acc; [reflexivity |].
  cbn. destruct (analyze_box _ _ _ nm acc box) as [acc' | e]; cbn; auto.
Qed.

Lemma analyze_detections_app (ds1 ds2 : list (gmap Z string * Box)) (acc : Acc) :
  analyze_detections self include_portion_estimate image_np acc (ds1 ++ ds2) =
  (acc' ← analyze_detections self include_portion_estimate image_np acc ds1;
   analyze_detections self include_portion_estimate image_np acc' ds2).
Proof.
  revert acc. induction ds1 as [| [nm box] rest IH]; intros acc; [reflexivity |].
  cbn. destruct (analyze_box _ _ _ nm acc box) as [acc' | e]; cbn; auto.
Qed.

Lemma analyze_results_flat (results : list DetectionResult) (acc : Acc) :
  analyze_results self include_portion_estimate image_np acc results =
  analyze_detections self include_portion_estimate image_np acc (detections results).
Proof.
  revert acc. induction results as [| result rest IH]; intros acc; [reflexivity |].
  cbn - [analyze_detections]. rewrite analyze_detections_app.
  unfold analyze_result.
  destruct (boxes result) as [bs |].
  - rewrite analyze_boxes_flat.
    destruct (analyze_detections _ _ _ acc _) as [acc' | e]; cbn; auto.
  - cbn. apply IH.
Qed.

(** The two things the loop body can do to the accumulators when it
    returns. *)
Lemma analyze_box_returns (nm : gmap Z string) (acc acc' : Acc) (box : Box) :
  analyze_box self include_portion_estimate image_np nm acc box = Returns acc' ->
  match food_key nm box with
  | None => acc' = acc
  | Some key =>
      exists food_info,
        name food_info = key /\
        acc_foods acc' = (acc_foods acc ++ [food_info])%list /\
        if include_portion_estimate then
          exists portion,
            _estimate_portion self image_np key (xyxy box) = Returns portion /\
            acc_portions acc' = <[key := portion]> (acc_portions acc)
        else acc_portions acc' = acc_portions acc
  end.
Proof.
  unfold analyze_box, class_name_of, food_key.
  destruct (nm !! cls box) as [label |]; cbn; [| discriminate].
  destruct (xyxy box) as [[[x1 y1] x2] y2].
  destruct (truthy_name (_map_to_food_class label)) as [key |].
  - destruct include_portion_estimate.
    + destruct (_estimate_portion self image_np key (x1, y1, x2, y2))
        as [portion | e]; cbn; [| discriminate].
      intros [= <-]. eexists (Build_FoodInfo key _ _).
      split; [reflexivity |]. split; [reflexivity |].
      exists portion. split; reflexivity.
    + intros [= <-]. eexists (Build_FoodInfo key _ _).
      split; [reflexivity |]. split; reflexivity.
  - intros [= <-]. reflexivity.
Qed.

Lemma analyze_box_covered (nm : gmap Z string) (acc acc' : Acc) (box : Box) :
  analyze_box self include_portion_estimate image_np nm acc box = Returns acc' ->
  covered acc -> covered acc'.
Proof.
  intros Hbox Hcov. apply analyze_box_returns in Hbox.
  destruct (food_key nm box) as [key |]; [| subst; exact Hcov].
  destruct Hbox as (info & Hname & Hfoods & Hportions).
  intros k Hk. rewrite Hfoods.
  assert (Hold : is_Some (acc_portions acc !! k) ->
                 exists f, f ∈ (acc_foods acc ++ [info])%list /\ name f = k).
  { intros H. destruct (Hcov k H) as (f & Hf & Hn).
    exists f. split; [apply elem_of_app; left; exact Hf | exact Hn]. }
  destruct include_portion_estimate.
  - destruct Hportions as (portion & _ & Hp). rewrite Hp in Hk.
    destruct (decide (key = k)) as [-> | Hne].
    + exists info. split; [| exact Hname].
      apply elem_of_app. right. apply list_elem_of_singleton. reflexivity.
    + rewrite lookup_insert_ne in Hk by exact Hne. auto.
  - rewrite Hportions in Hk. auto.
Qed.

Lemma analyze_detections_covered (ds : list (gmap Z string * Box)) (acc acc' : Acc) :
  analyze_detections self include_portion_estimate image_np acc ds = Returns acc' ->
  covered acc -> covered acc'.
Proof.
  revert acc. induction ds as [| [nm box] rest IH]; intros acc; cbn.
  - intros [= <-]. auto.
  - destruct (analyze_box _ _ _ nm acc box) as [acc1 | e] eqn:E; cbn; [| discriminate].
    intros Hrest Hcov. apply (IH acc1 Hrest).
    apply (analyze_box_covered nm acc acc1 box E Hcov).
Qed.

(** Detections that are all dropped leave the accumulators untouched. *)
Lemma analyze_detections_all_dropped (ds : list (gmap Z string * Box)) (acc : Acc) :
  (forall nm box, (nm, box) ∈ ds ->
     (exists label, nm !! cls box = Some label) /\ food_key nm box = None) ->
  analyze_detections self include_portion_estimate image_np acc ds = Returns acc.
Proof.
  induction ds as [| [nm box] rest IH]; intros Hall; [reflexivity |].
  cbn. destruct (Hall nm box) as [Hlabel Hkey]; [apply elem_of_cons; auto |].
  rewrite (analyze_box_dropped self include_portion_estimate image_np nm acc box
             Hlabel Hkey).
  cbn. apply IH. intros nm' box' Hin. apply Hall. apply elem_of_cons. auto.
Qed.

(** Detections of other keys do not touch the estimate of a key. *)
Lemma analyze_detections_other_keys
    (key : string) (ds : list (gmap Z string * Box)) (acc acc' : Acc) :
  (forall nm box, (nm, box) ∈ ds -> food_key nm box <> Some key) ->
  analyze_detections self include_portion_estimate image_np acc ds = Returns acc' ->
  acc_portions acc' !! key = acc_portions acc !! key.
Proof.
  revert acc. induction ds as [| [nm box] rest IH]; intros acc Hother; cbn.
  - intros [= <-]. reflexivity.
  - destruct (analyze_box _ _ _ nm acc box) as [acc1 | e] eqn:E; cbn; [| discriminate].
    intros Hrest.
    rewrite (IH acc1); [| intros nm' box' Hin; apply Hother, elem_of_cons; auto
                        | exact Hrest].
    apply analyze_box_returns in E.
    assert (Hne : food_key nm box <> Some key)
      by (apply Hother, elem_of_cons; auto).
    destruct (food_key nm box) as [k |]; [| subst; reflexivity].
    destruct E as (info & _ & _ & Hportions).
    destruct include_portion_estimate.
    + destruct Hportions as (portion & _ & ->).
      apply lookup_insert_ne. congruence.
    + rewrite Hportions. reflexivity.
Qed.

End Loop.

(** * The assembled result *)

Section Result.

Context {U : UnicodeData}.

Variable image_open : list Byte.byte -> outcome PILImage.
Variable self : FoodDetectionService.
Variable image_data : list Byte.byte.
Variable include_portion_estimate : bool.

(** A call that returns went through the decoder, the detector and one pass
    over the detections. *)
Lemma analyze_image_returns (result : AnalysisResult) :
  analyze_image image_open self image_data include_portion_estimate = Returns result ->
  exists image food_model results acc,
    image_open image_data = Returns image /\
    food_recognition (model_loader self) = Some food_model /\
    food_model (np_array image) (confidence_threshold self) = Returns results /\
    analyze_detections self include_portion_estimate (np_array image) empty_acc
      (detections results) = Returns acc /\
    result = {| detected_foods := acc_foods acc;
                portion_estimates := acc_portions acc;
                image_dimensions := (width image, height image) |}.
Proof.
  unfold analyze_image.
  destruct (image_open image_data) as [image | e]; cbn; [| discriminate].
  destruct (food_recognition (model_loader self)) as [fm |]; [| discriminate].
  destruct (fm (np_array image) (confidence_threshold self)) as [results | e] eqn:Efm;
    cbn; [| discriminate].
  rewrite analyze_results_flat.
  destruct (analyze_detections _ _ _ _ _) as [acc | e] eqn:Eacc; cbn; [| discriminate].
  intros [= <-]. exists image, fm, results, acc. auto.
Qed.

(** C7.  When the image decodes, the detector is loaded and answers, and
    every box it reports is dropped (none reported, results without boxes,
    or labels that map to nothing), the call returns a result with no
    detected food, no portion estimate, and the size of the image. *)
Theorem no_detection_is_empty_result
    (image : PILImage) (food_model : FoodModel) (results : list DetectionResult) :
  image_open image_data = Returns image ->
  food_recognition (model_loader self) = Some food_model ->
  food_model (np_array image) (confidence_threshold self) = Returns results ->
  (forall nm box, (nm, box) ∈ detections results ->
     (exists label, nm !! cls box = Some label) /\ food_key nm box = None) ->
  analyze_image image_open self image_data include_portion_estimate =
  Returns {| detected_foods := [];
             portion_estimates := ∅;
             image_dimensions := (width image, height image) |}.
Proof.
  intros Hopen Hmodel Hresults Hall. unfold analyze_image.
  rewrite Hopen. cbn. rewrite Hmodel, Hresults. cbn.
  rewrite analyze_results_flat.
  rewrite (analyze_detections_all_dropped _ _ _ _ _ Hall). reflexivity.
Qed.

(** C9.  In a returned result, every key of the portion estimates is the
    name of a detected food. *)
Theorem portions_are_detected (result : AnalysisResult) (key : string) :
  analyze_image image_open self image_data include_portion_estimate = Returns result ->
  is_Some (portion_estimates result !! key) ->
  exists food_info, food_info ∈ detected_foods result /\ name food_info = key.
Proof.
  intros Hret Hkey.
  destruct (analyze_image_returns result Hret)
    as (image & fm & results & acc & _ & _ & _ & Hacc & ->).
  cbn in *.
  apply (analyze_detections_covered _ _ _ _ _ _ Hacc); [| exact Hkey].
  intros k Hk. cbn in Hk. rewrite lookup_empty in Hk.
  destruct Hk as [x Hx]. discriminate.
Qed.

(** C8.  When portions are asked for, the estimate stored for a key is the
    one computed from the last kept detection of that key: the mapping has
    that single value for the key, whatever earlier detections of the same
    key gave. *)
Theorem last_estimate_wins
    (image : PILImage) (food_model : FoodModel) (results : list DetectionResult)
    (result : AnalysisResult)
    (earlier later : list (gmap Z string * Box))
    (nm : gmap Z string) (box : Box) (key : string) :
  include_portion_estimate = true ->
  image_open image_data = Returns image ->
  food_recognition (model_loader self) = Some food_model ->
  food_model (np_array image) (confidence_threshold self) = Returns results ->
  analyze_image image_open self image_data include_portion_estimate = Returns result ->
  detections results = (earlier ++ (nm, box) :: later)%list ->
  food_key nm box = Some key ->
  (forall nm' box', (nm', box') ∈ later -> food_key nm' box' <> Some key) ->
  exists portion,
    _estimate_portion self (np_array image) key (xyxy box) = Returns portion /\
    portion_estimates result !! key = Some portion /\
    (key, portion) ∈ map_to_list (portion_estimates result) /\
    (forall other, (key, other) ∈ map_to_list (portion_estimates result) ->
       other = portion).
Proof.
  intros Hinc Hopen Hmodel Hresults Hret Hsplit Hkey Hlater.
  destruct (analyze_image_returns result Hret)
    as (image' & fm & results' & acc & Hopen' & Hmodel' & Hresults' & Hacc & ->).
  assert (image' = image) as -> by congruence.
  assert (fm = food_model) as -> by congruence.
  assert (results' = results) as -> by congruence.
  rewrite Hsplit, analyze_detections_app in Hacc.
  destruct (analyze_detections _ _ _ empty_acc earlier) as [acc1 | e];
    cbn in Hacc; [| discriminate].
  destruct (analyze_box self include_portion_estimate (np_array image) nm acc1 box)
    as [acc2 | e] eqn:Ebox; cbn in Hacc; [| discriminate].
  apply analyze_box_returns in Ebox. rewrite Hkey, Hinc in Ebox.
  destruct Ebox as (info & _ & _ & portion & Hest & Hportions).
  pose proof (analyze_detections_other_keys _ _ _ key later acc2 acc Hlater Hacc)
    as Hsame.
  rewrite Hportions, lookup_insert_eq in Hsame.
  exists portion. cbn. split; [exact Hest |]. split; [exact Hsame |].
  split.
  - apply elem_of_map_to_list. exact Hsame.
  - intros other Hin. apply elem_of_map_to_list in Hin. congruence.
Qed.

End Result.

Lemma no_detection_is_empty_result_witness :
  analyze_image Scenario.image_open
    (Scenario.service "plate" [Scenario.the_box] None) [] true =
  Returns {| detected_foods := [];
             portion_estimates := ∅;
             image_dimensions := (1000, 1000) |}.
Proof.
  apply (no_detection_is_empty_result Scenario.image_open
           (Scenario.service "plate" [Scenario.the_box] None) [] true
           Scenario.photo (Scenario.detector "plate" [Scenario.the_box])
           [ {| boxes := Some [Scenario.the_box]; names := {[ 47 := "plate" ]} |} ]).
  - reflexivity.
  - reflexivity.
  - reflexivity.
  - intros nm box Hin. cbn in Hin.
    apply list_elem_of_singleton in Hin. injection Hin as -> ->.
    split; [exists "plate"; reflexivity | vm_compute; reflexivity].
Defined.

Lemma portions_are_detected_witness :
  exists food_info,
    food_info ∈
      [ {| name := "apple";
           confidence := double 0.9;
           bounding_box :=
             {| bb_x := 100; bb_y := 100; bb_width := 300; bb_height := 300 |} |} ]
    /\ name food_info = "apple".
Proof.
  apply (portions_are_detected Scenario.image_open
           (Scenario.service "apple" [Scenario.the_box] None) [] true
           {| detected_foods :=
                [ {| name := "apple";
                     confidence := double 0.9;
                     bounding_box :=
                       {| bb_x := 100; bb_y := 100;
                          bb_width := 300; bb_height := 300 |} |} ];
              portion_estimates := {[ "apple" := Fin (double 109.2) ]};
              image_dimensions := (1000, 1000) |} "apple").
  - vm_compute. reflexivity.
  - exists (Fin (double 109.2)). vm_compute. reflexivity.
Defined.

Lemma last_estimate_wins_witness :
  exists result portion,
    analyze_image Scenario.image_open
      (Scenario.service "apple" [Scenario.flat_box; Scenario.the_box] None) [] true
    = Returns result /\
    _estimate_portion
      (Scenario.service "apple" [Scenario.flat_box; Scenario.the_box] None)
      (np_array Scenario.photo) "apple" (xyxy Scenario.the_box) = Returns portion /\
    portion_estimates result !! "apple" = Some portion.
Proof.
  eexists.
  destruct (last_estimate_wins Scenario.image_open
              (Scenario.service "apple" [Scenario.flat_box; Scenario.the_box] None)
              [] true Scenario.photo
              (Scenario.detector "apple" [Scenario.flat_box; Scenario.the_box])
              [ {| boxes := Some [Scenario.flat_box; Scenario.the_box];
                   names := {[ 47 := "apple" ]} |} ]
              {| detected_foods :=
                   [ {| name := "apple";
                        confidence := double 0.9;
                        bounding_box :=
                          {| bb_x := 100; bb_y := 100;
                             bb_width := 0; bb_height := 300 |} |};
                     {| name := "apple";
                        confidence := double 0.9;
                        bounding_box :=
                          {| bb_x := 100; bb_y := 100;
                             bb_width := 300; bb_height := 300 |} |} ];
                 portion_estimates := {[ "apple" := Fin (double 109.2) ]};
                 image_dimensions := (1000, 1000) |}
              [ ({[ 47 := "apple" ]}, Scenario.flat_box) ] []
              {[ 47 := "apple" ]} Scenario.the_box "apple")
    as (portion & Hest & Hlookup & _).
  - reflexivity.
  - reflexivity.
  - reflexivity.
  - reflexivity.
  - vm_compute. reflexivity.
  - reflexivity.
  - vm_compute. reflexivity.
  - intros nm' box' Hin. apply elem_of_nil in Hin. contradiction.
  - exists portion. split; [vm_compute; reflexivity |].
    split; [exact Hest | exact Hlookup].
Defined.

(** * More on the label mapper *)

Lemma lower_char_idempotent (c : ascii) : lower_char (lower_char c) = lower_char c.
Proof.
  destruct c as [[] [] [] [] [] [] [] []]; reflexivity.
Qed.

Lemma ascii_lower_idempotent (s : string) :
  ascii_lower (ascii_lower s) = ascii_lower s.
Proof.
  induction s as [| c rest IH]; [reflexivity |].
  cbn. rewrite lower_char_idempotent, IH. reflexivity.
Qed.

(** Lower-casing gives no empty string from a string that is not empty. *)
Lemma lower_empty {U : UnicodeData} (s : string) : lower s = "" -> s = "".
Proof.
  destruct s as [| c rest]; [reflexivity |].
  unfold lower. destruct (is_ascii (String c rest)); [discriminate |].
  destruct (lower_text c rest). discriminate.
Qed.

(** The entries of the alias table. *)
Lemma mappings_entries (key : string) (image : option string) :
  mappings !! key = Some image ->
  (key, image) ∈
    [ ("hot dog", Some "hotdog"); ("french fries", Some "fries");
      ("doughnut", Some "donut"); ("cup", Some "coffee");
      ("bowl", Some "soup"); ("plate", None) ].
Proof.
  unfold mappings. apply elem_of_list_to_map_2.
Qed.

(** The table has no entry for the empty string. *)
Lemma FOOD_CLASSES_no_empty_key : FOOD_CLASSES !! "" = None.
Proof.
  vm_compute. reflexivity.
Qed.

(** The Latin-1 tables of the scenarios: lower-casing twice is lower-casing
    once. *)
Lemma lower_byte_ascii (after_lead : bool) (c : ascii) :
  (N_of_ascii c <? 128)%N = true ->
  Scenario.lower_byte after_lead c = lower_char c.
Proof.
  destruct after_lead, c as [[] [] [] [] [] [] [] []];
    intros H; first [reflexivity | discriminate H].
Qed.

Lemma lower_byte_idempotent (after_lead : bool) (c : ascii) :
  Scenario.lower_byte after_lead (Scenario.lower_byte after_lead c)
  = Scenario.lower_byte after_lead c.
Proof.
  destruct after_lead, c as [[] [] [] [] [] [] [] []]; reflexivity.
Qed.

Lemma lower_byte_lead (after_lead : bool) (c : ascii) :
  Ascii.eqb (Scenario.lower_byte after_lead c) "195" = Ascii.eqb c "195".
Proof.
  destruct after_lead, c as [[] [] [] [] [] [] [] []]; reflexivity.
Qed.

Lemma latin1_lower_ascii (after_lead : bool) (s : string) :
  is_ascii s = true -> Scenario.latin1_lower after_lead s = ascii_lower s.
Proof.
  revert after_lead. induction s as [| c rest IH]; intros after_lead H;
    [reflexivity |].
  cbn in H. apply andb_true_iff in H as [Hc Hrest].
  cbn. rewrite (lower_byte_ascii after_lead c Hc), (IH _ Hrest). reflexivity.
Qed.

Lemma latin1_lower_idempotent (after_lead : bool) (s : string) :
  Scenario.latin1_lower after_lead (Scenario.latin1_lower after_lead s)
  = Scenario.latin1_lower after_lead s.
Proof.
  revert after_lead. induction s as [| c rest IH]; intros after_lead;
    [reflexivity |].
  cbn. rewrite lower_byte_idempotent, lower_byte_lead, IH. reflexivity.
Qed.

Lemma latin1_lower_value (s : string) :
  lower (U := Scenario.latin1) s = Scenario.latin1_lower false s.
Proof.
  unfold lower. destruct (is_ascii s) eqn:E.
  - symmetry. apply latin1_lower_ascii, E.
  - destruct s as [| c rest]; reflexivity.
Qed.

Lemma latin1_idempotent (s : string) :
  lower (U := Scenario.latin1) (lower (U := Scenario.latin1) s)
  = lower (U := Scenario.latin1) s.
Proof.
  rewrite !latin1_lower_value. apply latin1_lower_idempotent.
Qed.

Section Canonical.

Context {U : UnicodeData}.

(** Lower-casing a lower-cased string changes nothing; [str.lower] has
    this property. *)
Hypothesis lower_idempotent : forall s : string, lower (lower s) = lower s.

Lemma _map_to_food_class_fixed (label key : string) :
  _map_to_food_class label = Some key ->
  lower key = key /\ _map_to_food_class key = Some key.
Proof.
  unfold _map_to_food_class.
  destruct (FOOD_CLASSES !! lower label) as [info |] eqn:Etable.
  - intros [= <-]. rewrite lower_idempotent, Etable. auto.
  - destruct (mappings !! lower label) as [image |] eqn:Ealias.
    + intros ->. apply mappings_entries in Ealias.
      repeat (apply elem_of_cons in Ealias as [Ealias | Ealias];
              [simplify_eq; split; vm_compute; reflexivity |]).
      apply elem_of_nil in Ealias. contradiction.
    + intros [= <-]. rewrite lower_idempotent, Etable, Ealias. auto.
Qed.

(** X1.  Keys the mapper produces are in lower case, as [str.lower] has
    it, and are mapped to themselves: mapping twice is mapping once. *)
Theorem mapped_key_is_fixed (label key : string) :
  _map_to_food_class label = Some key ->
  lower key = key /\ _map_to_food_class key = Some key.
Proof.
  apply _map_to_food_class_fixed.
Qed.

End Canonical.

Lemma mapped_key_is_fixed_witness :
  (lower "Éclair" <> "Éclair" /\
   lower "éclair" = "éclair" /\ _map_to_food_class "éclair" = Some "éclair") /\
  (lower "hotdog" = "hotdog" /\ _map_to_food_class "hotdog" = Some "hotdog").
Proof.
  split.
  - split; [vm_compute; discriminate |].
    apply (mapped_key_is_fixed latin1_idempotent "Éclair" "éclair").
    vm_compute. reflexivity.
  - apply (mapped_key_is_fixed latin1_idempotent "Hot Dog" "hotdog").
    vm_compute. reflexivity.
Defined.

(** X2.  A detection is dropped for its label in two cases only: the label is
    "plate" in any mix of cases, or it is empty. *)
Theorem dropped_labels {U : UnicodeData} (label : string) :
  truthy_name (_map_to_food_class label) = None <->
  lower label = "plate" \/ label = "".
Proof.
  unfold _map_to_food_class. split.
  - destruct (FOOD_CLASSES !! lower label) as [info |] eqn:Etable.
    + cbn. destruct (lower label) eqn:El; [| discriminate].
      rewrite FOOD_CLASSES_no_empty_key in Etable. discriminate.
    + destruct (mappings !! lower label) as [image |] eqn:Ealias.
      * intros Hdrop. apply mappings_entries in Ealias.
        repeat (apply elem_of_cons in Ealias as [Ealias | Ealias];
                [simplify_eq; first [discriminate Hdrop | left; assumption] |]).
        apply elem_of_nil in Ealias. contradiction.
      * cbn. destruct (lower label) eqn:El; [| discriminate].
        intros _. right. apply lower_empty, El.
  - intros [Hplate | ->].
    + rewrite Hplate. vm_compute. reflexivity.
    + vm_compute. reflexivity.
Qed.

(** * More on the loop *)

Section LoopShape.

Context {U : UnicodeData}.

Variable self : FoodDetectionService.
Variable image_np : ndarray.

(** What a returning loop body appends to the detected foods. *)
Lemma analyze_box_foods
    (include_portion_estimate : bool) (nm : gmap Z string)
    (acc acc' : Acc) (box : Box) :
  analyze_box self include_portion_estimate image_np nm acc box = Returns acc' ->
  is_Some (nm !! cls box) /\
  acc_foods acc' = (acc_foods acc ++ option_list (food_info_of nm box))%list.
Proof.
  unfold analyze_box, class_name_of, food_info_of, food_key.
  destruct (nm !! cls box) as [label |]; cbn; [| discriminate].
  destruct (xyxy box) as [[[x1 y1] x2] y2].
  destruct (truthy_name (_map_to_food_class label)) as [key |].
  - destruct include_portion_estimate.
    + destruct (_estimate_portion self image_np key (x1, y1, x2, y2))
        as [portion | e]; cbn; [| discriminate].
      intros [= <-]. split; [eauto | reflexivity].
    + intros [= <-]. split; [eauto | reflexivity].
  - intros [= <-]. cbn. rewrite app_nil_r. split; [eauto | reflexivity].
Qed.

(** Without portion estimates the loop body needs the class name only. *)
Lemma analyze_box_without_portions (nm : gmap Z string) (acc : Acc) (box : Box) :
  is_Some (nm !! cls box) ->
  analyze_box self false image_np nm acc box =
  Returns {| acc_foods := (acc_foods acc ++ option_list (food_info_of nm box))%list;
             acc_portions := acc_portions acc |}.
Proof.
  intros [label Hnm].
  unfold analyze_box, class_name_of, food_info_of, food_key. rewrite Hnm. cbn.
  destruct (xyxy box) as [[[x1 y1] x2] y2].
  destruct (truthy_name (_map_to_food_class label)) as [key |]; cbn.
  - reflexivity.
  - rewrite app_nil_r. destruct acc. reflexivity.
Qed.

Lemma kept_foods_cons (nm : gmap Z string) (box : Box) (ds : list (gmap Z string * Box)) :
  kept_foods ((nm, box) :: ds) = (option_list (food_info_of nm box) ++ kept_foods ds)%list.
Proof.
  unfold kept_foods. cbn. destruct (food_info_of nm box); reflexivity.
Qed.

Lemma analyze_detections_foods
    (include_portion_estimate : bool) (ds : list (gmap Z string * Box))
    (acc acc' : Acc) :
  analyze_detections self include_portion_estimate image_np acc ds = Returns acc' ->
  acc_foods acc' = (acc_foods acc ++ kept_foods ds)%list.
Proof.
  revert acc. induction ds as [| [nm box] rest IH]; intros acc.
  - cbn. intros [= <-]. rewrite app_nil_r. reflexivity.
  - rewrite kept_foods_cons. cbn - [kept_foods option_list].
    destruct (analyze_box _ _ _ nm acc box) as [acc1 | e] eqn:E;
      cbn - [kept_foods option_list]; [| discriminate].
    intros Hrest. rewrite (IH acc1 Hrest).
    apply analyze_box_foods in E as [_ ->].
    rewrite app_assoc. reflexivity.
Qed.

Lemma analyze_detections_without_portions
    (ds : list (gmap Z string * Box)) (acc acc' acc0 : Acc) :
  analyze_detections self true image_np acc ds = Returns acc' ->
  analyze_detections self false image_np acc0 ds =
  Returns {| acc_foods := (acc_foods acc0 ++ kept_foods ds)%list;
             acc_portions := acc_portions acc0 |}.
Proof.
  revert acc acc0. induction ds as [| [nm box] rest IH]; intros acc acc0.
  - cbn. intros _. rewrite app_nil_r. destruct acc0. reflexivity.
  - rewrite kept_foods_cons. cbn - [kept_foods option_list].
    destruct (analyze_box self true image_np nm acc box) as [acc1 | e] eqn:E;
      cbn - [kept_foods option_list]; [| discriminate].
    intros Hrest. apply analyze_box_foods in E as [Hnm _].
    rewrite (analyze_box_without_portions nm acc0 box Hnm).
    cbn - [kept_foods option_list].
    rewrite (IH acc1 _ Hrest). cbn - [kept_foods option_list].
    rewrite app_assoc. reflexivity.
Qed.

(** With portion estimates, every food appended has an estimate under its
    name. *)
Lemma analyze_detections_estimated
    (ds : list (gmap Z string * Box)) (acc acc' : Acc) :
  analyze_detections self true image_np acc ds = Returns acc' ->
  (forall food_info, food_info ∈ acc_foods acc ->
     is_Some (acc_portions acc !! name food_info)) ->
  forall food_info, food_info ∈ acc_foods acc' ->
    is_Some (acc_portions acc' !! name food_info).
Proof.
  revert acc. induction ds as [| [nm box] rest IH]; intros acc; cbn.
  - intros [= <-]. auto.
  - destruct (analyze_box self true image_np nm acc box) as [acc1 | e] eqn:E;
      cbn; [| discriminate].
    intros Hrest Hacc. apply (IH acc1 Hrest).
    apply analyze_box_returns in E.
    destruct (food_key nm box) as [key |]; [| subst; exact Hacc].
    destruct E as (info & Hname & Hfoods & portion & _ & Hportions).
    intros f Hf. rewrite Hfoods in Hf. rewrite Hportions.
    destruct (decide (key = name f)) as [-> | Hne].
    + rewrite lookup_insert_eq. eauto.
    + rewrite lookup_insert_ne by exact Hne.
      apply elem_of_app in Hf as [Hf | Hf]; [auto |].
      apply list_elem_of_singleton in Hf. subst f. congruence.
Qed.

End LoopShape.

Section ResultShape.

Context {U : UnicodeData}.

Variable image_open : list Byte.byte -> outcome PILImage.
Variable self : FoodDetectionService.
Variable image_data : list Byte.byte.

(** X3.  The detected foods are the kept detections, in the order the detector
    reported them, each with its confidence rounded to three decimals and
    its box truncated to whole pixels; this holds with and without portion
    estimates. *)
Theorem detected_foods_in_order
    (include_portion_estimate : bool) (image : PILImage) (food_model : FoodModel)
    (results : list DetectionResult) (result : AnalysisResult) :
  image_open image_data = Returns image ->
  food_recognition (model_loader self) = Some food_model ->
  food_model (np_array image) (confidence_threshold self) = Returns results ->
  analyze_image image_open self image_data include_portion_estimate = Returns result ->
  detected_foods result = kept_foods (detections results) /\
  image_dimensions result = (width image, height image).
Proof.
  intros Hopen Hmodel Hresults Hret.
  destruct (analyze_image_returns image_open self image_data
              include_portion_estimate result Hret)
    as (image' & fm & results' & acc & Hopen' & Hmodel' & Hresults' & Hacc & ->).
  assert (image' = image) as -> by congruence.
  assert (fm = food_model) as -> by congruence.
  assert (results' = results) as -> by congruence.
  cbn. split; [| reflexivity].
  apply analyze_detections_foods in Hacc. exact Hacc.
Qed.

(** X4.  Turning portion estimates off changes nothing but the estimates: if
    the call with estimates returns, the call without them returns the same
    detected foods and image size, and an empty mapping. *)
Theorem without_portion_estimates (result : AnalysisResult) :
  analyze_image image_open self image_data true = Returns result ->
  analyze_image image_open self image_data false =
  Returns {| detected_foods := detected_foods result;
             portion_estimates := ∅;
             image_dimensions := image_dimensions result |}.
Proof.
  intros Hret.
  destruct (analyze_image_returns image_open self image_data true result Hret)
    as (image & fm & results & acc & Hopen & Hmodel & Hresults & Hacc & ->).
  unfold analyze_image. rewrite Hopen. cbn. rewrite Hmodel, Hresults. cbn.
  rewrite analyze_results_flat.
  rewrite (analyze_detections_without_portions self (np_array image)
             (detections results) empty_acc acc empty_acc Hacc).
  cbn. apply analyze_detections_foods in Hacc. rewrite Hacc. reflexivity.
Qed.

(** X5.  With portion estimates on, the keys of the mapping are exactly the
    names of the detected foods. *)
Theorem every_detected_food_is_estimated (result : AnalysisResult) (key : string) :
  analyze_image image_open self image_data true = Returns result ->
  is_Some (portion_estimates result !! key) <->
  exists food_info, food_info ∈ detected_foods result /\ name food_info = key.
Proof.
  intros Hret.
  destruct (analyze_image_returns image_open self image_data true result Hret)
    as (image & fm & results & acc & _ & _ & _ & Hacc & ->).
  cbn. split.
  - apply (analyze_detections_covered _ _ _ _ _ _ Hacc).
    intros k Hk. cbn in Hk. rewrite lookup_empty in Hk.
    destruct Hk as [x Hx]. discriminate.
  - intros (f & Hf & <-).
    apply (analyze_detections_estimated self (np_array image)
             (detections results) empty_acc acc Hacc); [| exact Hf].
    intros f' Hf'. cbn in Hf'. apply elem_of_nil in Hf'. contradiction.
Qed.

End ResultShape.

(** * More on the numbers *)

Lemma clamp_mono (r1 r2 : Q) : (r1 <= r2)%Q -> (clamp r1 <= clamp r2)%Q.
Proof.
  intros H. unfold clamp, py_min, py_max.
  case_Qlt r1 2.0%Q; case_Qlt r2 2.0%Q;
    repeat match goal with
           | |- context [Qlt_bool ?a ?b] => case_Qlt a b
           end; lra.
Qed.

Lemma clamp_proper (r1 r2 : Q) : (r1 == r2)%Q -> (clamp r1 == clamp r2)%Q.
Proof.
  intros H. apply Qle_antisym; apply clamp_mono; lra.
Qed.

Lemma py_int_proper (x y : Q) : (x == y)%Q -> py_int x = py_int y.
Proof.
  unfold Qeq, py_int. intros H.
  rewrite <- (Z.quot_mul_cancel_r (Qnum x) (Zpos (Qden x)) (Zpos (Qden y)))
    by discriminate.
  rewrite <- (Z.quot_mul_cancel_r (Qnum y) (Zpos (Qden y)) (Zpos (Qden x)))
    by discriminate.
  rewrite H. f_equal. lia.
Qed.

(** A float quotient keeps the order of its numerators. *)
Lemma fdiv_mono (a1 a2 d : Q) :
  (0 < d)%Q -> (a1 <= a2)%Q -> (fdiv a1 d <= fdiv a2 d)%Q.
Proof.
  intros Hd Ha. unfold fdiv. apply double_mono.
  apply Qmult_le_r; [apply Qinv_lt_0_compat, Hd | exact Ha].
Qed.

Lemma fdiv_proper (a1 a2 d1 d2 : Q) :
  (a1 == a2)%Q -> (d1 == d2)%Q -> fdiv a1 d1 = fdiv a2 d2.
Proof.
  intros Ha Hd. unfold fdiv. apply double_proper. rewrite Ha, Hd. reflexivity.
Qed.

Lemma fmul_mono (w s1 s2 : Q) :
  (0 <= w)%Q -> (s1 <= s2)%Q -> (fmul w s1 <= fmul w s2)%Q.
Proof.
  intros Hw Hs. unfold fmul. apply double_mono. nra.
Qed.

Lemma fmul_proper (w1 w2 s1 s2 : Q) :
  (w1 == w2)%Q -> (s1 == s2)%Q -> fmul w1 s1 = fmul w2 s2.
Proof.
  intros Hw Hs. unfold fmul. apply double_proper. rewrite Hw, Hs. reflexivity.
Qed.

Lemma typical_ratio_positive : (0 < typical_ratio)%Q.
Proof. vm_compute. reflexivity. Qed.

Lemma FOOD_CLASSES_weight_min (key : string) (info : FoodClassInfo) :
  FOOD_CLASSES !! key = Some info -> 30 <= default_weight info.
Proof.
  unfold FOOD_CLASSES. intros H. apply elem_of_list_to_map_2 in H.
  repeat (apply elem_of_cons in H as [H | H];
          [injection H as _ ->; simpl; lia |]).
  apply elem_of_nil in H. contradiction.
Qed.

Lemma default_weight_of_min (food_name : string) : (30 <= default_weight_of food_name)%Q.
Proof.
  unfold default_weight_of.
  destruct (FOOD_CLASSES !! food_name) as [info |] eqn:E.
  - change 30%Q with (inject_Z 30). rewrite <- Zle_Qle.
    apply (FOOD_CLASSES_weight_min food_name), E.
  - lra.
Qed.

(** The unrounded area estimate is at least 15 g. *)
Lemma area_weight_min (image : ndarray) (food_name : string) (b : bbox) :
  (15 <= area_weight image food_name b)%Q.
Proof.
  rewrite area_weight_value.
  pose proof (default_weight_of_min food_name) as Hw.
  destruct (weight_product_bounds food_name (clamp (scale_ratio image b))
              (clamp_bounds _)) as [Hlo _].
  lra.
Qed.

(** * More on the estimator *)

(** What the depth stage can return as a weight. *)
Lemma _depth_based_estimation_returns
    (image : ndarray) (b : bbox) (depth_model : DepthModel) (d : pyfloat) :
  _depth_based_estimation image b depth_model = Returns (Some d) ->
  d = PInf \/ exists q, d = Fin q /\ (10 < q)%Q.
Proof.
  unfold _depth_based_estimation.
  destruct (depth_model image) as [depth_map | e]; [| discriminate].
  cbn. destruct (depth_weight depth_map b) as [g | e]; [| discriminate].
  cbn. unfold reject_noise.
  destruct (np_gt g (Fin 10)) eqn:E; [| discriminate].
  intros [= <-]. destruct g as [q | | |]; cbn in E; try discriminate.
  - right. exists q. split; [reflexivity |]. apply Qlt_bool_iff, E.
  - left. reflexivity.
Qed.

Lemma blend_finite (w d : Q) :
  (10 < d)%Q ->
  blend w (Returns (Some (Fin d))) = Fin ((w + d) / 2).
Proof.
  intros H. unfold blend, truthy.
  destruct (Qeq_bool d 0) eqn:E.
  - apply Qeq_bool_iff in E. lra.
  - reflexivity.
Qed.

Lemma blend_cases (w : Q) (depth : outcome (option pyfloat)) :
  (forall d, depth = Returns (Some d) ->
     d = PInf \/ exists q, d = Fin q /\ (10 < q)%Q) ->
  blend w depth = Fin w \/
  blend w depth = PInf \/
  exists q, (10 < q)%Q /\ blend w depth = Fin ((w + q) / 2).
Proof.
  intros Hd. destruct depth as [[d |] | e]; [| left; reflexivity ..].
  destruct (Hd d eq_refl) as [-> | (q & -> & Hq)].
  - right. left. reflexivity.
  - right. right. exists q. split; [exact Hq | apply blend_finite, Hq].
Qed.

(** Rounding to one decimal keeps a weight at or above 12.5 g. *)
Lemma py_round1_above_noise (x : Q) : (12.5 <= x)%Q -> (12.5 <= py_round 1 x)%Q.
Proof.
  apply (py_round1_lower 125); vm_compute; reflexivity.
Qed.

(** Whatever the depth model does, an estimate is a finite weight of at
    least 12.5 g, or plus infinity. *)
Lemma _estimate_portion_positive
    (self : FoodDetectionService) (image : ndarray) (food_name : string)
    (b : bbox) (portion : pyfloat) :
  _estimate_portion self image food_name b = Returns portion ->
  portion = PInf \/ exists grams, portion = Fin grams /\ (12.5 <= grams)%Q.
Proof.
  unfold _estimate_portion, py_div.
  destruct (Qeq_bool _ 0); [discriminate |]. cbn.
  fold (scale_ratio image b). fold (area_weight image food_name b).
  pose proof (area_weight_min image food_name b) as Hmin.
  assert (Hgeo : (12.5 <= py_round 1 (area_weight image food_name b))%Q)
    by (apply py_round1_above_noise; lra).
  destruct (depth_estimation (model_loader self)) as [dm |].
  - destruct (blend_cases (area_weight image food_name b)
                (_depth_based_estimation image b dm)
                (_depth_based_estimation_returns image b dm))
      as [-> | [-> | (q & Hq & ->)]]; intros [= <-]; cbn.
    + right. eauto.
    + left. reflexivity.
    + right. eexists. split; [reflexivity |].
      apply py_round1_above_noise.
      unfold Qdiv. change (/ 2)%Q with (1 # 2)%Q. lra.
  - intros [= <-]. right. eauto.
Qed.

(** X6.  Without a depth model a box of larger area never gets a smaller
    estimate. *)
Theorem estimate_grows_with_area
    (self : FoodDetectionService) (image : ndarray) (food_name : string)
    (b1 b2 : bbox) :
  0 < shape0 image -> 0 < shape1 image ->
  depth_estimation (model_loader self) = None ->
  (food_area b1 <= food_area b2)%Q ->
  exists grams1 grams2 : Q,
    _estimate_portion self image food_name b1 = Returns (Fin grams1) /\
    _estimate_portion self image food_name b2 = Returns (Fin grams2) /\
    (grams1 <= grams2)%Q.
Proof.
  intros H0 H1 Hdepth Harea.
  rewrite !(_estimate_portion_unfold self image food_name _ H0 H1), Hdepth.
  do 2 eexists. split; [reflexivity |]. split; [reflexivity |].
  apply py_round1_mono. rewrite !area_weight_value.
  pose proof (default_weight_of_min food_name) as Hw.
  apply fmul_mono; [lra |]. apply clamp_mono. unfold scale_ratio.
  apply fdiv_mono; [apply typical_ratio_positive |].
  apply fdiv_mono; [apply image_area_positive; assumption | exact Harea].
Qed.

Lemma estimate_grows_with_area_witness :
  exists grams1 grams2 : Q,
    _estimate_portion (Scenario.service "apple" [] None)
      (np_array Scenario.photo) "apple" (100, 100, 400, 400)%Q = Returns (Fin grams1) /\
    _estimate_portion (Scenario.service "apple" [] None)
      (np_array Scenario.photo) "apple" (100, 100, 500, 500)%Q = Returns (Fin grams2) /\
    (grams1 <= grams2)%Q.
Proof.
  apply estimate_grows_with_area.
  - simpl. lia.
  - simpl. lia.
  - reflexivity.
  - vm_compute. discriminate.
Defined.

(** Without a depth model the estimate is a function of the ratio of the
    two areas, as floats. *)
Lemma estimate_by_ratio
    (self : FoodDetectionService) (image1 image2 : ndarray) (food_name : string)
    (b1 b2 : bbox) :
  depth_estimation (model_loader self) = None ->
  (shape0 image1 * shape1 image1 = 0 <-> shape0 image2 * shape1 image2 = 0) ->
  (shape0 image1 * shape1 image1 <> 0 ->
   shape0 image2 * shape1 image2 <> 0 ->
   (food_area b1 / double (inject_Z (shape0 image1 * shape1 image1))
    == food_area b2 / double (inject_Z (shape0 image2 * shape1 image2)))%Q) ->
  _estimate_portion self image1 food_name b1 =
  _estimate_portion self image2 food_name b2.
Proof.
  intros Hdepth Hzero Hratio. unfold _estimate_portion, py_div. rewrite Hdepth.
  assert (Hz : forall a : Z, Qeq_bool (double (inject_Z a)) 0 = true <-> a = 0).
  { intros a. rewrite Qeq_bool_iff, double_eq_zero.
    change 0%Q with (inject_Z 0). apply inject_Z_injective. }
  destruct (Qeq_bool (double (inject_Z (shape0 image1 * shape1 image1))) 0) eqn:E1;
    destruct (Qeq_bool (double (inject_Z (shape0 image2 * shape1 image2))) 0) eqn:E2.
  - reflexivity.
  - apply Hz, Hzero, Hz in E1. congruence.
  - apply Hz, Hzero, Hz in E2. congruence.
  - cbn. do 2 f_equal. apply py_round_proper.
    assert (Hr : fdiv (food_area b1) (double (inject_Z (shape0 image1 * shape1 image1)))
                 = fdiv (food_area b2) (double (inject_Z (shape0 image2 * shape1 image2)))).
    { apply double_proper, Hratio; intros H; apply Hz in H; congruence. }
    rewrite Hr. reflexivity.
Qed.

(** X7.  Without a depth model the estimate does not depend on the
    resolution: the same picture at another size, with the box scaled
    alike, gets the same estimate, as long as the two box areas and the two
    image areas are computed without rounding, as they are for coordinates
    in whole pixels.  Where the areas are rounded, the last digit of the
    estimate can change: a slice of bread of 15.0 g is one of 15.1 g at five
    times the resolution. *)
Theorem estimate_is_resolution_independent :
  (forall (self : FoodDetectionService) (image1 image2 : ndarray)
          (food_name : string) (x1 y1 x2 y2 c : Q),
     (0 < c)%Q ->
     depth_estimation (model_loader self) = None ->
     (inject_Z (shape0 image2) == c * inject_Z (shape0 image1))%Q ->
     (inject_Z (shape1 image2) == c * inject_Z (shape1 image1))%Q ->
     Z.abs (shape0 image1 * shape1 image1) < 2 ^ 53 ->
     Z.abs (shape0 image2 * shape1 image2) < 2 ^ 53 ->
     (food_area (x1, y1, x2, y2) == (x2 - x1) * (y2 - y1))%Q ->
     (food_area (c * x1, c * y1, c * x2, c * y2)
      == (c * x2 - c * x1) * (c * y2 - c * y1))%Q ->
     _estimate_portion self image2 food_name (c * x1, c * y1, c * x2, c * y2)%Q =
     _estimate_portion self image1 food_name (x1, y1, x2, y2)) /\
  (let self := Scenario.service "bread" [] None in
   let x := (34359750843315 # 137438953472)%Q in
   let y := (661905759596771 # 2199023255552)%Q in
   let larger :=
     {| shape0 := 5000; shape1 := 5000; channels := Some 3;
        item := fun _ _ => [0; 0; 0] |} in
   double x = x /\ double y = y /\
   double (5 * x) = Qred (5 * x) /\ double (5 * y) = Qred (5 * y) /\
   _estimate_portion self (np_array Scenario.photo) "bread" (0, 0, x, y)%Q
   = Returns (Fin 15) /\
   _estimate_portion self larger "bread" (5 * 0, 5 * 0, 5 * x, 5 * y)%Q
   = Returns (Fin (double 15.1))).
Proof.
  split.
  - intros self image1 image2 food_name x1 y1 x2 y2 c Hc Hdepth H0 H1 Hs1 Hs2 Ha1 Ha2.
    assert (Harea : (inject_Z (shape0 image2 * shape1 image2)
                     == c * c * inject_Z (shape0 image1 * shape1 image1))%Q).
    { rewrite !inject_Z_mult, H0, H1. ring. }
    assert (Hz : forall a : Z, (inject_Z a == 0)%Q <-> a = 0).
    { intros a. change 0%Q with (inject_Z 0). apply inject_Z_injective. }
    apply estimate_by_ratio; [exact Hdepth | |].
    + rewrite <- !Hz, Harea. split; intros H.
      * apply Qmult_integral in H as [H | H]; [| exact H].
        apply Qmult_integral in H as [H | H]; lra.
      * rewrite H. ring.
    + intros _ Hne. rewrite Ha1, Ha2, (double_Z _ Hs1), (double_Z _ Hs2), Harea.
      rewrite <- Hz in Hne. field. split; [exact Hne | lra].
  - repeat split; vm_compute; reflexivity.
Qed.

Lemma estimate_is_resolution_independent_witness :
  _estimate_portion (Scenario.service "apple" [] None)
    (np_array Scenario.photo) "apple"
    (5 * 20, 5 * 20, 5 * 80, 5 * 80)%Q =
  _estimate_portion (Scenario.service "apple" [] None)
    (np_array Scenario.snapshot) "apple" (20, 20, 80, 80)%Q.
Proof.
  apply (proj1 estimate_is_resolution_independent).
  - reflexivity.
  - reflexivity.
  - vm_compute. reflexivity.
  - vm_compute. reflexivity.
  - vm_compute. reflexivity.
  - vm_compute. reflexivity.
  - vm_compute. reflexivity.
  - vm_compute. reflexivity.
Defined.

(** * More on the depth stage *)

Lemma py_slice_same {A : Type} (l : list A) (a : Z) : py_slice l a a = [].
Proof.
  unfold py_slice. rewrite Z.sub_diag. reflexivity.
Qed.

Lemma concat_empty_rows {A : Type} (rows : list (list A)) (a : Z) :
  concat (map (fun row => py_slice row a a) rows) = [].
Proof.
  induction rows as [| row rest IH]; [reflexivity |].
  cbn. rewrite py_slice_same, IH. reflexivity.
Qed.

(** A box without width or height in whole pixels has an empty crop, whose
    mean is nan: the depth stage gives no number for it. *)
Lemma depth_weight_of_empty_crop (depth_map : list (list Q)) (x1 y1 x2 y2 : Q) :
  py_int x1 = py_int x2 \/ py_int y1 = py_int y2 ->
  depth_weight depth_map (x1, y1, x2, y2) = Returns NaN \/
  exists e, depth_weight depth_map (x1, y1, x2, y2) = Raises e.
Proof.
  intros Hflat. unfold depth_weight.
  assert (Hcrop : concat (map (fun row => py_slice row (py_int x1) (py_int x2))
                            (py_slice depth_map (py_int y1) (py_int y2))) = []).
  { destruct Hflat as [-> | ->].
    - apply concat_empty_rows.
    - rewrite py_slice_same. reflexivity. }
  rewrite Hcrop.
  destruct (np_max (concat depth_map)) as [m | e]; cbn; [left | right; eauto].
  reflexivity.
Qed.

Lemma empty_crop_is_silent
    (image : ndarray) (x1 y1 x2 y2 : Q) (w : Q)
    (depth_model : DepthModel) :
  py_int x1 = py_int x2 \/ py_int y1 = py_int y2 ->
  blend w (_depth_based_estimation image (x1, y1, x2, y2) depth_model) = Fin w.
Proof.
  intros Hflat. unfold _depth_based_estimation.
  destruct (depth_model image) as [depth_map | e]; [| reflexivity].
  cbn - [depth_weight].
  destruct (depth_weight_of_empty_crop depth_map x1 y1 x2 y2 Hflat)
    as [-> | [e ->]]; reflexivity.
Qed.

(** X8.  A box without width or without height gets half the default weight,
    rounded, with any depth model or none: its crop of the depth map is
    empty, and the depth stage is silent. *)
Theorem flat_box_gets_half_weight
    (self : FoodDetectionService) (image : ndarray) (food_name : string)
    (x1 y1 x2 y2 : Q) :
  0 < shape0 image -> 0 < shape1 image ->
  (x1 == x2 \/ y1 == y2)%Q ->
  _estimate_portion self image food_name (x1, y1, x2, y2) =
  Returns (Fin (py_round 1 (default_weight_of food_name * 0.5))).
Proof.
  intros H0 H1 Hflat.
  rewrite (_estimate_portion_unfold self image food_name _ H0 H1).
  unfold area_weight.
  rewrite (clamp_of_empty_box image x1 y1 x2 y2 Hflat).
  rewrite <- half_weight_rounded.
  destruct (depth_estimation (model_loader self)) as [dm |]; [| reflexivity].
  rewrite empty_crop_is_silent; [reflexivity |].
  destruct Hflat as [H | H]; [left | right]; apply py_int_proper, H.
Qed.

Lemma flat_box_gets_half_weight_witness :
  _estimate_portion
    (Scenario.service "apple" [Scenario.flat_box] (Some Scenario.flat_provider))
    (np_array Scenario.snapshot) "apple" (100, 100, 100, 400)%Q =
  Returns (Fin (py_round 1 (default_weight_of "apple" * 0.5))).
Proof.
  apply flat_box_gets_half_weight.
  - simpl. lia.
  - simpl. lia.
  - left. reflexivity.
Defined.

(** ** Relative depth *)

Section RelativeDepth.

Variable c : Q.
Hypothesis c_positive : (0 < c)%Q.















End RelativeDepth.





(** ** Small boxes *)











(** * More on the assembled result *)

Section Robustness.

Context {U : UnicodeData}.

Variable self : FoodDetectionService.
Variable include_portion_estimate : bool.
Variable image_np : ndarray.
Hypothesis rows_positive : 0 < shape0 image_np.
Hypothesis columns_positive : 0 < shape1 image_np.

(** On an image of positive size the loop body raises only for a class id
    without a name. *)
Lemma analyze_box_succeeds (nm : gmap Z string) (acc : Acc) (box : Box) :
  is_Some (nm !! cls box) ->
  exists acc', analyze_box self include_portion_estimate image_np nm acc box
               = Returns acc'.
Proof.
  intros [label Hnm]. unfold analyze_box, class_name_of. rewrite Hnm. cbn.
  destruct (xyxy box) as [[[x1 y1] x2] y2].
  destruct (truthy_name (_map_to_food_class label)) as [key |]; [| eauto].
  destruct include_portion_estimate; [| eauto].
  rewrite (_estimate_portion_unfold self image_np key _ rows_positive columns_positive).
  cbn. eauto.
Qed.

Lemma analyze_detections_succeeds (ds : list (gmap Z string * Box)) (acc : Acc) :
  (forall nm box, (nm, box) ∈ ds -> is_Some (nm !! cls box)) ->
  exists acc', analyze_detections self include_portion_estimate image_np acc ds
               = Returns acc'.
Proof.
  revert acc. induction ds as [| [nm box] rest IH]; intros acc Hall; cbn; [eauto |].
  destruct (analyze_box_succeeds nm acc box) as [acc1 ->];
    [apply Hall, elem_of_cons; auto |].
  cbn. apply IH. intros nm' box' Hin. apply Hall, elem_of_cons. auto.
Qed.

End Robustness.

Section Values.

Context {U : UnicodeData}.

Variable self : FoodDetectionService.
Variable include_portion_estimate : bool.
Variable image_np : ndarray.

Lemma analyze_detections_values (ds : list (gmap Z string * Box)) (acc acc' : Acc) :
  analyze_detections self include_portion_estimate image_np acc ds = Returns acc' ->
  (forall key portion, acc_portions acc !! key = Some portion ->
     portion = PInf \/ exists grams, portion = Fin grams /\ (12.5 <= grams)%Q) ->
  forall key portion, acc_portions acc' !! key = Some portion ->
    portion = PInf \/ exists grams, portion = Fin grams /\ (12.5 <= grams)%Q.
Proof.
  revert acc. induction ds as [| [nm box] rest IH]; intros acc; cbn.
  - intros [= <-]. auto.
  - destruct (analyze_box _ _ _ nm acc box) as [acc1 | e] eqn:E; cbn; [| discriminate].
    intros Hrest Hacc. apply (IH acc1 Hrest).
    apply analyze_box_returns in E.
    destruct (food_key nm box) as [k |]; [| subst; exact Hacc].
    destruct E as (info & _ & _ & Hportions).
    destruct include_portion_estimate.
    + destruct Hportions as (p & Hest & ->). intros key portion.
      destruct (decide (k = key)) as [-> | Hne].
      * rewrite lookup_insert_eq. intros [= <-].
        apply (_estimate_portion_positive _ _ _ _ _ Hest).
      * rewrite lookup_insert_ne by exact Hne. apply Hacc.
    + rewrite Hportions. exact Hacc.
Qed.

End Values.

Section ResultFacts.

Context {U : UnicodeData}.

Variable image_open : list Byte.byte -> outcome PILImage.
Variable self : FoodDetectionService.
Variable image_data : list Byte.byte.
Variable include_portion_estimate : bool.

(** X11.  Every portion estimate of a returned result is a finite weight of at
    least 12.5 g or plus infinity: never zero, negative or nan, whatever
    the depth model did. *)
Theorem portion_estimates_are_positive
    (result : AnalysisResult) (key : string) (portion : pyfloat) :
  analyze_image image_open self image_data include_portion_estimate = Returns result ->
  portion_estimates result !! key = Some portion ->
  portion = PInf \/ exists grams, portion = Fin grams /\ (12.5 <= grams)%Q.
Proof.
  intros Hret.
  destruct (analyze_image_returns image_open self image_data
              include_portion_estimate result Hret)
    as (image & fm & results & acc & _ & _ & _ & Hacc & ->).
  cbn. apply (analyze_detections_values _ _ _ _ _ _ Hacc).
  intros k p Hk. cbn in Hk. rewrite lookup_empty in Hk. discriminate.
Qed.

(** X12.  Once the image is decoded to a positive size and the detector has
    answered with class ids that all have names, the call returns: no
    behaviour of the depth model can make it fail. *)
Theorem analysis_succeeds
    (image : PILImage) (food_model : FoodModel) (results : list DetectionResult) :
  image_open image_data = Returns image ->
  0 < width image -> 0 < height image ->
  food_recognition (model_loader self) = Some food_model ->
  food_model (np_array image) (confidence_threshold self) = Returns results ->
  (forall nm box, (nm, box) ∈ detections results -> is_Some (nm !! cls box)) ->
  exists result,
    analyze_image image_open self image_data include_portion_estimate = Returns result.
Proof.
  intros Hopen Hw Hh Hmodel Hresults Hnames.
  unfold analyze_image. rewrite Hopen. cbn. rewrite Hmodel, Hresults. cbn.
  rewrite analyze_results_flat.
  destruct (analyze_detections_succeeds self include_portion_estimate
              (np_array image) Hh Hw (detections results) empty_acc Hnames)
    as [acc ->].
  cbn. eauto.
Qed.

(** X13.  A class id that the detector result has no name for fails the whole
    call with a KeyError, also after other detections were processed: no
    partial result is returned. *)
Theorem missing_class_name_is_fatal
    (image : PILImage) (food_model : FoodModel) (results : list DetectionResult)
    (earlier later : list (gmap Z string * Box)) (nm : gmap Z string) (box : Box) :
  image_open image_data = Returns image ->
  0 < width image -> 0 < height image ->
  food_recognition (model_loader self) = Some food_model ->
  food_model (np_array image) (confidence_threshold self) = Returns results ->
  detections results = (earlier ++ (nm, box) :: later)%list ->
  (forall nm' box', (nm', box') ∈ earlier -> is_Some (nm' !! cls box')) ->
  nm !! cls box = None ->
  analyze_image image_open self image_data include_portion_estimate = Raises KeyError.
Proof.
  intros Hopen Hw Hh Hmodel Hresults Hsplit Hearlier Hmissing.
  unfold analyze_image. rewrite Hopen. cbn. rewrite Hmodel, Hresults. cbn.
  rewrite analyze_results_flat, Hsplit, analyze_detections_app.
  destruct (analyze_detections_succeeds self include_portion_estimate
              (np_array image) Hh Hw earlier empty_acc Hearlier)
    as [acc ->].
  cbn. unfold analyze_box, class_name_of. rewrite Hmissing. reflexivity.
Qed.

End ResultFacts.

Lemma detected_foods_in_order_witness :
  detected_foods Scenario.apple_result =
  kept_foods
    (detections
       [ {| boxes := Some [Scenario.the_box]; names := {[ 47 := "apple" ]} |} ]) /\
  image_dimensions Scenario.apple_result = (1000, 1000).
Proof.
  apply (detected_foods_in_order Scenario.image_open
           (Scenario.service "apple" [Scenario.the_box] None) [] true
           Scenario.photo (Scenario.detector "apple" [Scenario.the_box])).
  - reflexivity.
  - reflexivity.
  - reflexivity.
  - vm_compute. reflexivity.
Defined.

Lemma without_portion_estimates_witness :
  analyze_image Scenario.image_open
    (Scenario.service "apple" [Scenario.the_box] None) [] false =
  Returns {| detected_foods := detected_foods Scenario.apple_result;
             portion_estimates := ∅;
             image_dimensions := image_dimensions Scenario.apple_result |}.
Proof.
  apply without_portion_estimates. vm_compute. reflexivity.
Defined.

Lemma every_detected_food_is_estimated_witness :
  is_Some (portion_estimates Scenario.apple_result !! "apple") <->
  exists food_info,
    food_info ∈ detected_foods Scenario.apple_result /\ name food_info = "apple".
Proof.
  apply (every_detected_food_is_estimated Scenario.image_open
           (Scenario.service "apple" [Scenario.the_box] None) []).
  vm_compute. reflexivity.
Defined.

Lemma portion_estimates_are_positive_witness :
  Fin (double 109.2) = PInf \/
  exists grams, Fin (double 109.2) = Fin grams /\ (12.5 <= grams)%Q.
Proof.
  apply (portion_estimates_are_positive Scenario.image_open
           (Scenario.service "apple" [Scenario.the_box] None) [] true
           Scenario.apple_result "apple").
  - vm_compute. reflexivity.
  - vm_compute. reflexivity.
Defined.

Lemma analysis_succeeds_witness :
  exists result,
    analyze_image Scenario.image_open
      (Scenario.service "apple" [Scenario.the_box]
         (Some (fun _ => Raises (ProviderError "out of memory"))))
      [] true = Returns result.
Proof.
  apply (analysis_succeeds Scenario.image_open _ [] true Scenario.photo
           (Scenario.detector "apple" [Scenario.the_box])
           [ {| boxes := Some [Scenario.the_box]; names := {[ 47 := "apple" ]} |} ]).
  - reflexivity.
  - simpl. lia.
  - simpl. lia.
  - reflexivity.
  - reflexivity.
  - intros nm box Hin. cbn in Hin.
    apply list_elem_of_singleton in Hin. injection Hin as -> ->.
    exists "apple". reflexivity.
Defined.

Lemma missing_class_name_is_fatal_witness :
  analyze_image Scenario.image_open Scenario.nameless_service [] true =
  Raises KeyError.
Proof.
  apply (missing_class_name_is_fatal Scenario.image_open
           Scenario.nameless_service [] true Scenario.photo
           Scenario.nameless_detector
           [ {| boxes := Some [Scenario.the_box]; names := ∅ |} ]
           [] [] ∅ Scenario.the_box).
  - reflexivity.
  - simpl. lia.
  - simpl. lia.
  - reflexivity.
  - reflexivity.
  - reflexivity.
  - intros nm' box' Hin. apply elem_of_nil in Hin. contradiction.
  - reflexivity.
Defined.

(** * The keys of the portion estimates *)

Section Keys.

Context {U : UnicodeData}.

(** Lower-casing a lower-cased string changes nothing; [str.lower] has
    this property. *)
Hypothesis lower_idempotent : forall s : string, lower (lower s) = lower s.

Lemma food_key_is_canonical (nm : gmap Z string) (box : Box) (key : string) :
  food_key nm box = Some key ->
  key <> "" /\ lower key = key /\ _map_to_food_class key = Some key.
Proof.
  unfold food_key. destruct (nm !! cls box) as [label |]; [| discriminate].
  destruct (_map_to_food_class label) as [k |] eqn:E; [| discriminate].
  destruct k as [| c rest]; [discriminate |]. cbn. intros [= <-].
  split; [discriminate |].
  apply (_map_to_food_class_fixed lower_idempotent label), E.
Qed.

Lemma kept_foods_names (ds : list (gmap Z string * Box)) (food_info : FoodInfo) :
  food_info ∈ kept_foods ds ->
  exists nm box, (nm, box) ∈ ds /\ food_key nm box = Some (name food_info).
Proof.
  unfold kept_foods. intros H.
  apply list_elem_of_omap in H as ([nm box] & Hin & Hinfo).
  exists nm, box. split; [exact Hin |].
  cbn in Hinfo. unfold food_info_of in Hinfo.
  destruct (food_key nm box) as [key |]; [| discriminate].
  destruct (xyxy box) as [[[x1 y1] x2] y2]. injection Hinfo as <-. reflexivity.
Qed.

(** What a returned result says about one of its portion estimates. *)
Lemma analyze_image_portion
    (image_open : list Byte.byte -> outcome PILImage)
    (self : FoodDetectionService) (image_data : list Byte.byte)
    (include_portion_estimate : bool)
    (result : AnalysisResult) (key : string) (portion : pyfloat) :
  analyze_image image_open self image_data include_portion_estimate = Returns result ->
  portion_estimates result !! key = Some portion ->
  (key <> "" /\ lower key = key /\ _map_to_food_class key = Some key) /\
  (portion = PInf \/ exists grams, portion = Fin grams /\ (12.5 <= grams)%Q).
Proof.
  intros Hret Hkey.
  destruct (analyze_image_returns image_open self image_data
              include_portion_estimate result Hret)
    as (image & fm & results & acc & _ & _ & _ & Hacc & ->).
  cbn in Hkey. split.
  - destruct (analyze_detections_covered _ _ _ _ _ _ Hacc) with (key := key)
      as (f & Hf & Hname).
    + intros k Hk. cbn in Hk. rewrite lookup_empty in Hk.
      destruct Hk as [x Hx]. discriminate.
    + eauto.
    + rewrite (analyze_detections_foods _ _ _ _ _ _ Hacc) in Hf. cbn in Hf.
      apply kept_foods_names in Hf as (nm & box & _ & Hfood).
      rewrite Hname in Hfood. apply (food_key_is_canonical nm box key Hfood).
  - apply (analyze_detections_values _ _ _ _ _ _ Hacc) with (key := key);
      [| exact Hkey].
    intros k p Hk. cbn in Hk. rewrite lookup_empty in Hk. discriminate.
Qed.

(** X14.  The keys of the portion estimates are canonical: not empty, in lower
    case as [str.lower] has it, and mapped to themselves by the label
    mapper. *)
Theorem portion_keys_are_canonical
    (image_open : list Byte.byte -> outcome PILImage)
    (self : FoodDetectionService) (image_data : list Byte.byte)
    (include_portion_estimate : bool)
    (result : AnalysisResult) (key : string) :
  analyze_image image_open self image_data include_portion_estimate = Returns result ->
  is_Some (portion_estimates result !! key) ->
  key <> "" /\ lower key = key /\ _map_to_food_class key = Some key.
Proof.
  intros Hret [portion Hkey].
  apply (analyze_image_portion _ _ _ _ _ _ _ Hret Hkey).
Qed.

End Keys.

Lemma portion_keys_are_canonical_witness :
  lower "Éclair" <> "Éclair" /\
  "éclair" <> "" /\ lower "éclair" = "éclair" /\
  _map_to_food_class "éclair" = Some "éclair".
Proof.
  split; [vm_compute; discriminate |].
  apply (portion_keys_are_canonical latin1_idempotent Scenario.image_open
           (Scenario.service "Éclair" [Scenario.the_box] None) [] true
           {| detected_foods :=
                [ {| name := "éclair";
                     confidence := double 0.9;
                     bounding_box :=
                       {| bb_x := 100; bb_y := 100;
                          bb_width := 300; bb_height := 300 |} |} ];
              portion_estimates := {[ "éclair" := Fin 60 ]};
              image_dimensions := (1000, 1000) |} "éclair").
  - vm_compute. reflexivity.
  - exists (Fin 60). vm_compute. reflexivity.
Defined.

(** * The allowed content types *)

Lemma split_on_nonempty (sep : ascii) (s : string) : split_on sep s <> [].
Proof.
  destruct s as [| c rest]; cbn; [discriminate |].
  destruct (Ascii.eqb c sep); [discriminate |].
  destruct (split_on sep rest); discriminate.
Qed.

Lemma split_on_no_separator (sep : ascii) (s piece : string) :
  piece ∈ split_on sep s -> has_char sep piece = false.
Proof.
  revert piece. induction s as [| c rest IH]; intros piece; cbn.
  - intros H. apply list_elem_of_singleton in H. subst piece. reflexivity.
  - destruct (Ascii.eqb c sep) eqn:Ec.
    + intros H. apply elem_of_cons in H as [-> | H]; [reflexivity | auto].
    + destruct (split_on sep rest) as [| first pieces] eqn:Es.
      * intros H. apply list_elem_of_singleton in H. subst piece.
        cbn. rewrite Ec. reflexivity.
      * intros H. apply elem_of_cons in H as [-> | H].
        -- cbn. rewrite Ec. cbn. apply IH. apply elem_of_cons. auto.
        -- apply IH. apply elem_of_cons. auto.
Qed.

Section EndpointFacts.

Context {U : UnicodeData}.

Variable settings : Settings.
Variable image_open : list Byte.byte -> outcome PILImage.
Variable state : option Loader.t.

(** X15.  A content type with a comma in it is refused with status 400 under
    every configuration: the allowed types are the pieces between the
    commas of the setting. *)
Theorem comma_in_content_type_is_refused
    (image : UploadFile) (declared : string) (include_portion_estimate : bool) :
  content_type image = Some declared ->
  has_char "," declared = true ->
  analyze_food_image settings image_open state image include_portion_estimate
  = HTTPException 400.
Proof.
  intros Htype Hcomma. unfold analyze_food_image, type_allowed. rewrite Htype.
  destruct (bool_decide (declared ∈ allowed_image_types_list settings)) eqn:E;
    [| reflexivity].
  apply bool_decide_eq_true in E. apply split_on_no_separator in E. congruence.
Qed.

End EndpointFacts.

Section PortionEndpoint.

Context {U : UnicodeData}.

Variable settings : Settings.
Variable image_open : list Byte.byte -> outcome PILImage.
Variable state : option Loader.t.

(** Lower-casing a lower-cased string changes nothing; [str.lower] has
    this property. *)
Hypothesis lower_idempotent : forall s : string, lower (lower s) = lower s.

(** X17.  The portion endpoint answers with one food only for a name that is a
    key of the portion estimates: such a name is not empty and is in lower
    case, and the weight is the one analysis stored, at least 12.5 g or plus
    infinity.  A name that lower-casing changes, such as one with an
    upper-case letter, never selects one food: when the analysis returns, the
    answer is the whole mapping. *)
Theorem estimate_portion_one_food (image : UploadFile) (food_name : option string) :
  (forall (answered : string) (grams : pyfloat),
     estimate_portion settings image_open state image food_name
     = Respond (OneFood answered grams) ->
     food_name = Some answered /\
     answered <> "" /\ lower answered = answered /\
     (grams = PInf \/ exists weight, grams = Fin weight /\ (12.5 <= weight)%Q) /\
     exists loader result,
       state = Some loader /\
       analyze_image image_open
         (FoodDetectionService_init settings (Loader.for_service loader))
         (read image) true = Returns result /\
       portion_estimates result !! answered = Some grams) /\
  (forall wanted : string,
     food_name = Some wanted -> lower wanted <> wanted ->
     (forall answered grams,
        estimate_portion settings image_open state image food_name
        <> Respond (OneFood answered grams)) /\
     (forall loader result,
        state = Some loader ->
        analyze_image image_open
          (FoodDetectionService_init settings (Loader.for_service loader))
          (read image) true = Returns result ->
        estimate_portion settings image_open state image food_name
        = Respond (AllFoods (portion_estimates result)))).
Proof.
  assert (Hone : forall answered grams,
            estimate_portion settings image_open state image food_name
            = Respond (OneFood answered grams) ->
            food_name = Some answered /\
            answered <> "" /\ lower answered = answered /\
            (grams = PInf \/
             exists weight, grams = Fin weight /\ (12.5 <= weight)%Q) /\
            exists loader result,
              state = Some loader /\
              analyze_image image_open
                (FoodDetectionService_init settings (Loader.for_service loader))
                (read image) true = Returns result /\
              portion_estimates result !! answered = Some grams).
  { intros answered grams. unfold estimate_portion.
    destruct state as [loader |]; [| discriminate].
    destruct (analyze_image _ _ _ _) as [result | e] eqn:E; [| discriminate].
    destruct food_name as [[| c rest] |]; cbn; try discriminate.
    destruct (portion_estimates result !! String c rest) as [g |] eqn:Eg;
      [| discriminate].
    intros [= <- <-].
    destruct (analyze_image_portion lower_idempotent _ _ _ _ _ _ _ E Eg)
      as [(Hne & Hlow & _) Hpos].
    split; [reflexivity |]. split; [exact Hne |]. split; [exact Hlow |].
    split; [exact Hpos |]. exists loader, result. auto. }
  split; [exact Hone |].
  intros wanted Hwanted Hcase.
  assert (Hnever : forall answered grams,
            estimate_portion settings image_open state image food_name
            <> Respond (OneFood answered grams)).
  { intros answered grams Hanswer.
    destruct (Hone answered grams Hanswer) as (Hname & _ & Hlow & _).
    rewrite Hwanted in Hname. injection Hname as <-. contradiction. }
  split; [exact Hnever |].
  intros loader result Hstate Hret.
  specialize (Hnever wanted). revert Hnever.
  unfold estimate_portion. rewrite Hstate, Hret, Hwanted.
  destruct (truthy_name (Some wanted)) as [name |] eqn:Ename; [| reflexivity].
  assert (name = wanted) as -> by (destruct wanted; cbn in Ename; congruence).
  destruct (portion_estimates result !! wanted) as [g |]; [| reflexivity].
  intros Hnever. exfalso. apply (Hnever g). reflexivity.
Qed.

End PortionEndpoint.

Section Readiness.

Context {U : UnicodeData}.

Variable settings : Settings.
Variable image_open : list Byte.byte -> outcome PILImage.
Variable state : option Loader.t.

(** X18.  Without a detector in the registry the readiness probe says so, and
    no analysis request gets a body. *)
Theorem not_ready_means_no_analysis
    (image : UploadFile) (include_portion_estimate : bool)
    (food_name : option string) :
  readiness_check state <> Ready ->
  estimate_portion settings image_open state image food_name = HTTPException 500 /\
  forall result,
    analyze_food_image settings image_open state image include_portion_estimate
    <> Respond result.
Proof.
  intros Hready.
  assert (Hfail : forall contents include,
            match state with
            | None => True
            | Some loader =>
                exists e,
                  analyze_image image_open
                    (FoodDetectionService_init settings (Loader.for_service loader))
                    contents include = Raises e
            end).
  { intros contents include. destruct state as [loader |]; [| exact I].
    unfold readiness_check in Hready.
    unfold analyze_image, FoodDetectionService_init, Loader.for_service. cbn.
    destruct (Loader.get_model loader "food_recognition"); [congruence |].
    destruct (image_open contents); cbn; eauto. }
  split.
  - unfold estimate_portion. specialize (Hfail (read image) true).
    destruct state as [loader |]; [| reflexivity].
    destruct Hfail as [e ->]. reflexivity.
  - intros result. unfold analyze_food_image.
    destruct (negb (type_allowed settings image)); [discriminate |].
    destruct (_ <? _); [discriminate |].
    specialize (Hfail (read image) include_portion_estimate).
    destruct state as [loader |]; [| discriminate].
    destruct Hfail as [e ->]. discriminate.
Qed.

End Readiness.

Lemma comma_in_content_type_is_refused_witness :
  analyze_food_image Scenario.default_settings Scenario.image_open
    (Some Scenario.started) (Scenario.upload "image/jpeg,image/png") true
  = HTTPException 400.
Proof.
  apply (comma_in_content_type_is_refused _ _ _ _ "image/jpeg,image/png");
    reflexivity.
Defined.

Lemma estimate_portion_one_food_witness :
  let result :=
    {| detected_foods :=
         [ {| name := "éclair";
              confidence := double 0.9;
              bounding_box :=
                {| bb_x := 100; bb_y := 100; bb_width := 300; bb_height := 300 |} |} ];
       portion_estimates := {[ "éclair" := Fin 60 ]};
       image_dimensions := (1000, 1000) |} in
  (lower "Éclair" <> "Éclair" /\
   estimate_portion Scenario.default_settings Scenario.image_open
     (Some Scenario.patisserie) (Scenario.upload "image/png") (Some "Éclair")
   = Respond (AllFoods (portion_estimates result))) /\
  (estimate_portion Scenario.default_settings Scenario.image_open
     (Some Scenario.patisserie) (Scenario.upload "image/png") (Some "éclair")
   = Respond (OneFood "éclair" (Fin 60)) /\
   lower "éclair" = "éclair").
Proof.
  intros result.
  assert (Hcase : lower "Éclair" <> "Éclair") by (vm_compute; discriminate).
  split.
  - split; [exact Hcase |].
    apply (proj2 (proj2 (estimate_portion_one_food Scenario.default_settings
                           Scenario.image_open (Some Scenario.patisserie)
                           latin1_idempotent (Scenario.upload "image/png")
                           (Some "Éclair"))
                    "Éclair" eq_refl Hcase) Scenario.patisserie result eq_refl).
    vm_compute. reflexivity.
  - assert (Hanswer :
      estimate_portion Scenario.default_settings Scenario.image_open
        (Some Scenario.patisserie) (Scenario.upload "image/png") (Some "éclair")
      = Respond (OneFood "éclair" (Fin 60))) by (vm_compute; reflexivity).
    split; [exact Hanswer |].
    apply (proj1 (estimate_portion_one_food Scenario.default_settings
                    Scenario.image_open (Some Scenario.patisserie)
                    latin1_idempotent (Scenario.upload "image/png")
                    (Some "éclair"))
             "éclair" (Fin 60) Hanswer).
Defined.

Lemma not_ready_means_no_analysis_witness :
  estimate_portion Scenario.default_settings Scenario.image_open
    (Some (Loader.unload_models Scenario.started))
    (Scenario.upload "image/png") (Some "apple") = HTTPException 500 /\
  forall result,
    analyze_food_image Scenario.default_settings Scenario.image_open
      (Some (Loader.unload_models Scenario.started))
      (Scenario.upload "image/png") true
    <> Respond result.
Proof.
  apply not_ready_means_no_analysis. vm_compute. discriminate.
Defined.

(** * Loading the models *)

(** X19.  Start-up needs the detector only.  Loading fails exactly when the
    detector cannot be built, with that error; a depth model that cannot be
    fetched leaves its entry empty and loading still succeeds.  After a
    successful load the detector is the one that was built and the
    readiness probe reports ready. *)
Theorem load_models_needs_the_detector_only
    (build : string -> outcome FoodModel) (fetch : string -> outcome DepthModel)
    (self : Loader.t) :
  (forall e, build (Loader.device self) = Raises e ->
     Loader.load_models build fetch self = Raises e) /\
  (forall model, build (Loader.device self) = Returns model ->
     exists loader,
       Loader.load_models build fetch self = Returns loader /\
       Loader.get_model loader "food_recognition" = Some (Loader.Detector model) /\
       Loader.get_model loader "depth_estimation" =
         match fetch (Loader.device self) with
         | Returns depth => Some (Loader.Depth depth)
         | Raises _ => None
         end /\
       readiness_check (Some loader) = Ready /\
       food_recognition (Loader.for_service loader) = Some model).
Proof.
  split.
  - intros e He. unfold Loader.load_models, Loader._load_food_recognition_model.
    rewrite He. reflexivity.
  - intros model Hmodel.
    unfold Loader.load_models, Loader._load_food_recognition_model.
    rewrite Hmodel. cbn. eexists. split; [reflexivity |].
    assert (Hfood : forall entry,
              Loader.get_model
                {| Loader.models :=
                     <["depth_estimation" := entry]>
                       (<["food_recognition" := Some (Loader.Detector model)]>
                          (Loader.models self));
                   Loader.device := Loader.device self |} "food_recognition"
              = Some (Loader.Detector model)).
    { intros entry. unfold Loader.get_model. cbn.
      rewrite lookup_insert_ne by discriminate.
      rewrite lookup_insert_eq. reflexivity. }
    unfold Loader._load_depth_estimation_model, readiness_check, Loader.for_service.
    cbn. destruct (fetch (Loader.device self)) as [depth | e];
      rewrite !Hfood; (split; [reflexivity |]); (split; [| split; reflexivity]);
      unfold Loader.get_model; cbn; rewrite lookup_insert_eq; reflexivity.
Qed.

Lemma load_models_needs_the_detector_only_witness :
  exists loader,
    Loader.load_models Scenario.build Scenario.fetch Scenario.fresh = Returns loader /\
    Loader.get_model loader "depth_estimation" = None /\
    readiness_check (Some loader) = Ready.
Proof.
  destruct (proj2 (load_models_needs_the_detector_only
                     Scenario.build Scenario.fetch Scenario.fresh)
              (Scenario.detector "apple" [Scenario.the_box]))
    as (loader & Hload & _ & Hdepth & Hready & _).
  - reflexivity.
  - exists loader. split; [exact Hload |]. split; [exact Hdepth | exact Hready].
Defined.

(** X20.  When the depth model could not be fetched at start-up, the service
    built on the loaded registry has no depth model and estimates from the
    box area alone: the area estimate rounded to one decimal, the float of
    the nearest number of tenths. *)
Theorem failed_depth_load_means_area_only
    (settings : Settings)
    (build : string -> outcome FoodModel) (fetch : string -> outcome DepthModel)
    (self loader : Loader.t) (e : exn)
    (image : ndarray) (food_name : string) (b : bbox) :
  Loader.load_models build fetch self = Returns loader ->
  fetch (Loader.device self) = Raises e ->
  0 < shape0 image -> 0 < shape1 image ->
  let service := FoodDetectionService_init settings (Loader.for_service loader) in
  depth_estimation (model_loader service) = None /\
  exists grams : Q,
    _estimate_portion service image food_name b = Returns (Fin grams) /\
    grams = py_round 1 (area_weight image food_name b) /\
    rounded_to_tenth grams (area_weight image food_name b).
Proof.
  intros Hload Hfetch H0 H1 service.
  assert (Hdepth : depth_estimation (model_loader service) = None).
  { unfold Loader.load_models, Loader._load_food_recognition_model in Hload.
    destruct (build (Loader.device self)) as [model | e']; [| discriminate].
    cbn in Hload. injection Hload as <-.
    unfold service, Loader._load_depth_estimation_model. cbn. rewrite Hfetch.
    unfold Loader.get_model. cbn. rewrite lookup_insert_eq. reflexivity. }
  split; [exact Hdepth |].
  exists (py_round 1 (area_weight image food_name b)).
  split; [| split; [reflexivity | apply py_round1_tenth]].
  rewrite (_estimate_portion_unfold _ image food_name b H0 H1), Hdepth.
  reflexivity.
Qed.

Lemma failed_depth_load_means_area_only_witness :
  let service :=
    FoodDetectionService_init Scenario.default_settings
      (Loader.for_service Scenario.started) in
  let image := np_array Scenario.photo in
  let b := xyxy Scenario.bread_box in
  (15.05 < area_weight image "bread" b < 15.06)%Q /\
  _estimate_portion service image "bread" b = Returns (Fin (double 15.1)) /\
  rounded_to_tenth (double 15.1) (area_weight image "bread" b).
Proof.
  intros service image b.
  destruct (failed_depth_load_means_area_only Scenario.default_settings
              Scenario.build Scenario.fetch Scenario.fresh Scenario.started
              (ProviderError "model hub unreachable") image "bread" b)
    as (_ & grams & Hest & Hgrams & Hround).
  - reflexivity.
  - reflexivity.
  - simpl. lia.
  - simpl. lia.
  - assert (E : py_round 1 (area_weight image "bread" b) = double 15.1)
      by (vm_compute; reflexivity).
    rewrite E in Hgrams. subst grams.
    split; [split; vm_compute; reflexivity |].
    split; [exact Hest | exact Hround].
Defined.
